(** * Lucid: the query client facade and the PostgreSQL dialect adapter

  A shallow embedding of two source files of the repository:

  - the [QueryClient] class (mode-aware selection of the read and write
    handles of a connection, and the factories of query builders);
  - the [PgDialect] class (catalog introspection, truncate, the drop-all
    operations and the advisory locks, as SQL text sent through a client).

  JavaScript values are modelled as far as the two files look at them:
  strings, booleans, [undefined], objects as property lists and object
  references as addresses.  Calls that reach the database are calls to an
  abstract driver; every call is recorded in a trace, and a raised
  exception leaves the database state and the trace as they were when it
  was raised. *)

From Stdlib Require Import String Ascii List Bool Arith Lia.
Import ListNotations.
Local Open Scope string_scope.

Set Implicit Arguments.

(* ===================================================================== *)
(** ** JavaScript values and string primitives *)
(* ===================================================================== *)

Module Js.

(** The double quote character, and the one-character string of it. *)
Definition dquote : ascii := "034"%char.
Definition dot : ascii := "."%char.
Definition q : string := String dquote EmptyString.

(** An object reference: two references are the same object exactly when
    their addresses are equal. *)
Inductive Ref : Type := ref (addr : nat).

Definition Ref_eqb (a b : Ref) : bool :=
  match a, b with ref x, ref y => Nat.eqb x y end.

(** The primitive values that occur in result rows. *)
Inductive JsVal : Type :=
| JUndefined
| JBool (b : bool)
| JStr (s : string).

(** An object, as the list of its own properties. *)
Definition Obj := list (string * JsVal).

(** [o.k] : the value of property [k], [undefined] when absent. *)
Fixpoint prop (o : Obj) (k : string) : JsVal :=
  match o with
  | [] => JUndefined
  | (k', v) :: rest => if String.eqb k' k then v else prop rest k
  end.

(** ToString, as applied by a template literal. *)
Definition toString (v : JsVal) : string :=
  match v with
  | JUndefined => "undefined"
  | JBool true => "true"
  | JBool false => "false"
  | JStr s => s
  end.

(** [v === true] *)
Definition strictEqTrue (v : JsVal) : bool :=
  match v with JBool true => true | _ => false end.

(** [s.startsWith(p)] *)
Definition startsWith (s p : string) : bool := String.prefix p s.

(** [s.split(c)] for a one-character separator. *)
Fixpoint split (c : ascii) (s : string) : list string :=
  match s with
  | EmptyString => [EmptyString]
  | String a rest =>
      if Ascii.eqb a c then EmptyString :: split c rest
      else match split c rest with
           | [] => [String a EmptyString]
           | piece :: pieces => String a piece :: pieces
           end
  end.

(** [s.replace(/c/g, '')] for a one-character pattern. *)
Fixpoint removeAll (c : ascii) (s : string) : string :=
  match s with
  | EmptyString => EmptyString
  | String a rest =>
      if Ascii.eqb a c then removeAll c rest else String a (removeAll c rest)
  end.

(** [xs.join(sep)] on an array of strings. *)
Definition join (sep : string) (xs : list string) : string :=
  String.concat sep xs.

(** The string an array element contributes to [join]: [undefined] gives
    the empty string. *)
Definition joinPiece (v : JsVal) : string :=
  match v with
  | JUndefined => EmptyString
  | _ => toString v
  end.

(** [xs.join(sep)] on an array of values. *)
Definition joinVals (sep : string) (xs : list JsVal) : string :=
  join sep (map joinPiece xs).

(** [xs.includes(x)] on an array of strings. *)
Definition includes (xs : list string) (x : string) : bool :=
  existsb (String.eqb x) xs.

(** [xs.includes(v)] where [xs] holds strings and [v] is any value. *)
Definition includesVal (xs : list string) (v : JsVal) : bool :=
  match v with
  | JStr s => includes xs s
  | _ => false
  end.

(** [s.includes(sub)] on strings: [sub] occurs in [s]. *)
Fixpoint occursIn (sub s : string) : bool :=
  String.prefix sub s
  || match s with
     | EmptyString => false
     | String _ rest => occursIn sub rest
     end.

(** Whether a character occurs in a string. *)
Fixpoint hasChar (c : ascii) (s : string) : bool :=
  match s with
  | EmptyString => false
  | String a rest => Ascii.eqb a c || hasChar c rest
  end.

End Js.

(* ===================================================================== *)
(** ** Exceptions and the effect monad *)
(* ===================================================================== *)

Module Eff.

(** What a JavaScript call can throw here: the framework's [Exception]
    (message, status, code), a [TypeError] of the runtime (a property read
    on [undefined]), or an error of the database driver. *)
Inductive Thrown : Type :=
| Exception (message : string) (status : nat) (code : string)
| TypeError
| DriverError (detail : string).

(** How a call completes.  For an [async] method, [Abrupt] is the rejection
    of the promise it returns. *)
Inductive Completion (A : Type) : Type :=
| Normal (a : A)
| Abrupt (e : Thrown).
Arguments Abrupt {A} e.

Section Monad.
Variables S E : Type.

(** The state of the external collaborator, and the calls made to it so
    far, oldest first. *)
Record World : Type := mkWorld { state : S; trace : list E }.

Definition M (A : Type) : Type := World -> World * Completion A.

Definition ret {A} (a : A) : M A := fun w => (w, Normal a).

Definition throw {A} (e : Thrown) : M A := fun w => (w, Abrupt e).

Definition bind {A B} (m : M A) (k : A -> M B) : M B :=
  fun w =>
    match m w with
    | (w', Normal a) => k a w'
    | (w', Abrupt e) => (w', Abrupt e)
    end.

(** A synchronous, effect-free computation inside the monad. *)
Definition lift {A} (c : Completion A) : M A := fun w => (w, c).

(** One call to the collaborator: it is logged, and the collaborator
    moves to its next state whether the call succeeds or fails. *)
Definition call {A} (ev : E) (step : S -> S * Completion A) : M A :=
  fun w =>
    let (s', r) := step (state w) in
    (mkWorld s' (trace w ++ [ev]), r).
End Monad.

Arguments ret {S E A} a.
Arguments throw {S E A} e.
Arguments bind {S E A B} m k.
Arguments lift {S E A} c.
Arguments call {S E A} ev step.

(** Bind on completions alone. *)
Definition cbind {A B} (c : Completion A) (k : A -> Completion B)
  : Completion B :=
  match c with
  | Normal a => k a
  | Abrupt e => Abrupt e
  end.

End Eff.

Import Js Eff.

Declare Scope eff_scope.
Delimit Scope eff_scope with eff.
Notation "x <- m ;; k" := (bind m (fun x => k))
(at level 61, m at next level, right associativity) : eff_scope.
Notation "m ;;; k" := (bind m (fun _ => k))
(at level 61, right associativity) : eff_scope.

(* ===================================================================== *)
(** ** The query client *)
(* ===================================================================== *)

Module QueryClient.

(** [mode: 'dual' | 'write' | 'read'] *)
Inductive Mode : Type := dual | write | read.

(** Modelled from the spec: the declaration of [ConnectionContract] is not
    among the sources.  The record holds what the client reads of it: its
    name, the client type of its configuration, and the write and read knex
    handles.  Both handles are read with a non-null assertion in the source,
    so each may be [undefined] ([None]) at run time. *)
Record ConnectionContract : Type := mkConnection {
  name : string;
  config_client : string;
  client : option Ref;
  readClient : option Ref
}.

(** The fields of a [QueryClient] that are not derived from the others. *)
Record QueryClient : Type := mkQueryClient {
  mode : Mode;
  _connection : ConnectionContract;
  profiler : option Ref
}.

Definition isTransaction (c : QueryClient) : bool := false.

Definition connectionName (c : QueryClient) : string := name (_connection c).

(** The exception of [getWriteClient]. *)
Definition E_RUNTIME_EXCEPTION : Thrown :=
  Exception
    "Write client is not available for query client instantiated in read mode"
    500
    "E_RUNTIME_EXCEPTION".

(** [getReadClient()] *)
Definition getReadClient (c : QueryClient) : option Ref :=
  match mode c with
  | read | dual => readClient (_connection c)
  | write => client (_connection c)
  end.

(** [getWriteClient()] *)
Definition getWriteClient (c : QueryClient) : Completion (option Ref) :=
  match mode c with
  | write | dual => Normal (client (_connection c))
  | read => Abrupt E_RUNTIME_EXCEPTION
  end.

(** The receiver of a method call: calling a method on [undefined] throws a
    [TypeError]. *)
Definition receiver (v : option Ref) : Completion Ref :=
  match v with
  | Some h => Normal h
  | None => Abrupt TypeError
  end.

(** What [knex.queryBuilder()] returns: a builder of the handle it was
    asked from, with no table selected yet. *)
Record KnexQueryBuilder : Type := mkKnexQueryBuilder {
  kq_knex : Ref;
  kq_table : option string
}.

Definition queryBuilder (h : Ref) : KnexQueryBuilder :=
  mkKnexQueryBuilder h None.

(** What [knex.raw(sql, bindings)] returns. *)
Record KnexRaw : Type := mkKnexRaw {
  kr_knex : Ref;
  kr_sql : string;
  kr_bindings : option (list JsVal)
}.

(** Modelled from the spec: the builder classes are not among the sources.
    A builder holds the two arguments of its constructor, the knex builder
    and the client it was made by ([new DatabaseQueryBuilder(knexQuery,
    client)] and its siblings). *)
Record DatabaseQueryBuilder : Type := mkDatabaseQueryBuilder {
  dq_knexQuery : KnexQueryBuilder;
  dq_client : QueryClient
}.

Record InsertQueryBuilder : Type := mkInsertQueryBuilder {
  iq_knexQuery : KnexQueryBuilder;
  iq_client : QueryClient
}.

Record RawQueryBuilder : Type := mkRawQueryBuilder {
  rq_knexQuery : KnexRaw;
  rq_client : QueryClient
}.

Record ModelQueryBuilder : Type := mkModelQueryBuilder {
  mq_knexQuery : KnexQueryBuilder;
  mq_model : Ref;
  mq_client : QueryClient;
  mq_connection : string;
  mq_profiler : option Ref
}.

(** Modelled from the spec: the builder classes are not among the sources;
    [from] and [table] select a table on the respective builder. *)
Definition selectTable (b : KnexQueryBuilder) (t : string) : KnexQueryBuilder :=
  mkKnexQueryBuilder (kq_knex b) (Some t).

Definition DatabaseQueryBuilder_from (b : DatabaseQueryBuilder) (t : string)
  : DatabaseQueryBuilder :=
  mkDatabaseQueryBuilder (selectTable (dq_knexQuery b) t) (dq_client b).

Definition InsertQueryBuilder_table (b : InsertQueryBuilder) (t : string)
  : InsertQueryBuilder :=
  mkInsertQueryBuilder (selectTable (iq_knexQuery b) t) (iq_client b).

(** [knexQuery()] *)
Definition knexQuery (c : QueryClient) : Completion KnexQueryBuilder :=
  cbind (receiver (client (_connection c))) (fun h =>
  Normal (queryBuilder h)).

(** [query()] *)
Definition query (c : QueryClient) : Completion DatabaseQueryBuilder :=
  cbind (knexQuery c) (fun kq =>
  Normal (mkDatabaseQueryBuilder kq c)).

(** [insertQuery()] *)
Definition insertQuery (c : QueryClient) : Completion InsertQueryBuilder :=
  cbind (getWriteClient c) (fun v =>
  cbind (receiver v) (fun h =>
  Normal (mkInsertQueryBuilder (queryBuilder h) c))).

(** [raw(sql, bindings?)] *)
Definition raw (c : QueryClient) (sql : string) (bindings : option (list JsVal))
  : Completion RawQueryBuilder :=
  cbind (receiver (client (_connection c))) (fun h =>
  Normal (mkRawQueryBuilder (mkKnexRaw h sql bindings) c)).

(** [modelQuery(model)] *)
Definition modelQuery (c : QueryClient) (model : Ref)
  : Completion ModelQueryBuilder :=
  cbind (knexQuery c) (fun kq =>
  Normal (mkModelQueryBuilder kq model c (connectionName c) (profiler c))).

(** [from(table)] *)
Definition from (c : QueryClient) (t : string) : Completion DatabaseQueryBuilder :=
  cbind (query c) (fun b => Normal (DatabaseQueryBuilder_from b t)).

(** [table(table)] *)
Definition table (c : QueryClient) (t : string) : Completion InsertQueryBuilder :=
  cbind (insertQuery c) (fun b => Normal (InsertQueryBuilder_table b t)).

(** Modelled from the spec: the class [TransactionClient] is not among the
    sources.  The record holds the three arguments of its constructor and
    the [profiler] property that [transaction()] assigns. *)
Record TransactionClient : Type := mkTransactionClient {
  knexClient : Ref;
  tc_dialect : string;
  tc_connectionName : string;
  tc_profiler : option Ref
}.

Definition newTransactionClient (trx : Ref) (dialect connectionName : string)
  : TransactionClient :=
  mkTransactionClient trx dialect connectionName None.

(** [transaction.profiler = p] *)
Definition set_profiler (t : TransactionClient) (p : option Ref)
  : TransactionClient :=
  mkTransactionClient (knexClient t) (tc_dialect t) (tc_connectionName t) p.

(** The calls a client makes on a knex handle that reach the database,
    each with the arguments the source passes: the chains
    [h.select(selected).truncate()] and
    [h.select(selected).columnInfo(column)] (or [columnInfo()] with no
    argument), and [h.transaction()].  The client passes its [table]
    argument to [select] and calls neither [from] nor [table] on the
    builder; what knex makes of the argument of [select] is knex's own. *)
Inductive KnexCall : Type :=
| KTruncate (h : Ref) (selected : string)
| KColumnInfo (h : Ref) (selected : string) (column : option string)
| KTransaction (h : Ref).

(** The knex library and the database behind it: an external collaborator
    with a state of its own, which answers each call or fails. *)
Record Knex : Type := mkKnex {
  KState : Type;
  ColumnInfo : Type;
  resolveClientNameWithAliases : string -> string;
  knex_truncate : Ref -> string -> KState -> KState * Completion unit;
  knex_columnInfo :
    Ref -> string -> option string -> KState -> KState * Completion ColumnInfo;
  knex_transaction : Ref -> KState -> KState * Completion Ref
}.

Section Methods.
Variable K : Knex.

Local Open Scope eff_scope.

Definition KWorld : Type := World (KState K) KnexCall.
Definition KM (A : Type) : Type := M (KState K) KnexCall A.

(** [dialect] *)
Definition dialect (c : QueryClient) : string :=
  resolveClientNameWithAliases K (config_client (_connection c)).

(** [truncate(table)] : [getWriteClient().select(table).truncate()] *)
Definition truncate (c : QueryClient) (t : string) : KM unit :=
  h <- lift (cbind (getWriteClient c) receiver) ;;
  call (KTruncate h t) (knex_truncate K h t).

(** The truthiness of an optional string argument. *)
Definition truthy (column : option string) : bool :=
  match column with
  | Some (String _ _) => true
  | _ => false
  end.

(** [columnsInfo(table, column?)] : on [getWriteClient().select(table)],
    [columnInfo(column)] for a truthy column and [columnInfo()] otherwise. *)
Definition columnsInfo (c : QueryClient) (t : string) (column : option string)
  : KM (ColumnInfo K) :=
  h <- lift (cbind (getWriteClient c) receiver) ;;
  if truthy column
  then call (KColumnInfo h t column) (knex_columnInfo K h t column)
  else call (KColumnInfo h t None) (knex_columnInfo K h t None).

(** [transaction()] *)
Definition transaction (c : QueryClient) : KM TransactionClient :=
  h <- lift (cbind (getWriteClient c) receiver) ;;
  trx <- call (KTransaction h) (knex_transaction K h) ;;
  let transaction := newTransactionClient trx (dialect c) (connectionName c) in
  ret (set_profiler transaction (profiler c)).

End Methods.

End QueryClient.

(* ===================================================================== *)
(** ** The PostgreSQL dialect *)
(* ===================================================================== *)

Module PgDialect.

(** A query of the query builder, as the chain of builder calls leaves it. *)
Record Query : Type := mkQuery {
  q_from : option string;
  q_select : list string;
  q_distinct : bool;
  q_innerJoin : option (string * string * string);
  q_whereIn : option (string * list string);
  q_where : option (string * string);
  q_orderBy : option (string * string)
}.

(** [client.query()] : the empty query. *)
Definition emptyQuery : Query := mkQuery None [] false None None None None.

Definition from (t : string) (b : Query) : Query :=
  mkQuery (Some t) (q_select b) (q_distinct b) (q_innerJoin b)
    (q_whereIn b) (q_where b) (q_orderBy b).
Definition select (cols : list string) (b : Query) : Query :=
  mkQuery (q_from b) (q_select b ++ cols) (q_distinct b) (q_innerJoin b)
    (q_whereIn b) (q_where b) (q_orderBy b).
Definition distinct (b : Query) : Query :=
  mkQuery (q_from b) (q_select b) true (q_innerJoin b)
    (q_whereIn b) (q_where b) (q_orderBy b).
Definition innerJoin (t left right : string) (b : Query) : Query :=
  mkQuery (q_from b) (q_select b) (q_distinct b) (Some (t, left, right))
    (q_whereIn b) (q_where b) (q_orderBy b).
Definition whereIn (col : string) (vals : list string) (b : Query) : Query :=
  mkQuery (q_from b) (q_select b) (q_distinct b) (q_innerJoin b)
    (Some (col, vals)) (q_where b) (q_orderBy b).
Definition where_ (col val : string) (b : Query) : Query :=
  mkQuery (q_from b) (q_select b) (q_distinct b) (q_innerJoin b)
    (q_whereIn b) (Some (col, val)) (q_orderBy b).
Definition orderBy (col dir : string) (b : Query) : Query :=
  mkQuery (q_from b) (q_select b) (q_distinct b) (q_innerJoin b)
    (q_whereIn b) (q_where b) (Some (col, dir)).

(** The response of a raw query: an object with a [rows] array. *)
Record RawResponse : Type := mkRawResponse { rows : list Obj }.

(** The two ways the dialect reaches the database through its client. *)
Inductive ClientCall : Type :=
| Select (query : Query)
| Raw (sql : string).

(** The client of the dialect ([QueryClientContract]) and the database
    behind it: an external collaborator with a state of its own, which
    answers a query with rows and a raw statement with a response, or
    fails. *)
Record Client : Type := mkClient {
  DbState : Type;
  runQuery : Query -> DbState -> DbState * Completion (list Obj);
  runRaw : string -> DbState -> DbState * Completion RawResponse
}.

(** [{ wipe?: { ignoreTables?: string[] } }] *)
Record WipeConfig : Type := mkWipeConfig { ignoreTables : option (list string) }.
Record SharedConfigNode : Type := mkConfig { wipe : option WipeConfig }.

Definition name : string := "postgres".
Definition supportsAdvisoryLocks : bool := true.
Definition supportsViews : bool := true.
Definition supportsTypes : bool := true.
Definition supportsDomains : bool := true.
Definition supportsReturningStatement : bool := true.

(** [config.wipe?.ignoreTables || ['spatial_ref_sys']] : an array, even an
    empty one, is truthy. *)
Definition ignoredTables (config : SharedConfigNode) : list string :=
  match wipe config with
  | Some w =>
      match ignoreTables w with
      | Some l => l
      | None => ["spatial_ref_sys"]
      end
  | None => ["spatial_ref_sys"]
  end.

(** The arrow function [extractTableName]: the second piece of the split
    on the dot, with every double quote removed.  The second piece may be
    [undefined], on which [replace] throws. *)
Definition extractTableName (table : string) : Completion string :=
  match nth_error (split dot table) 1 with
  | Some piece => Normal (removeAll dquote piece)
  | None => Abrupt TypeError
  end.

(** [Array.prototype.filter] with a callback that may throw. *)
Fixpoint filterC {A} (keep : A -> Completion bool) (xs : list A)
  : Completion (list A) :=
  match xs with
  | [] => Normal []
  | x :: rest =>
      cbind (keep x) (fun b =>
      cbind (filterC keep rest) (fun rest' =>
      Normal (if b then x :: rest' else rest')))
  end.

(** The template literal of [getAllTables] and [getAllViews]: the schema
    and the name, each between double quotes, with a dot between them. *)
Definition qualified (schema name : JsVal) : string :=
  q ++ toString schema ++ q ++ "." ++ q ++ toString name ++ q.

(** [rows.map(({ typname }) => typname)] *)
Definition typnames (rows : list Obj) : list JsVal :=
  map (fun r => prop r "typname") rows.

Definition builtInDomains : list string :=
  ["cardinal_number"; "character_data"; "sql_identifier"; "time_stamp";
   "yes_or_no"].

Definition tablesQuery (schemas : list string) : Query :=
  orderBy "tablename" "asc"
    (whereIn "schemaname" schemas
      (select ["schemaname AS schema"; "tablename AS table"]
        (from "pg_catalog.pg_tables" emptyQuery))).

Definition viewsQuery (schemas : list string) : Query :=
  orderBy "viewname" "asc"
    (whereIn "schemaname" schemas
      (select ["schemaname AS schema"; "viewname AS view"]
        (from "pg_catalog.pg_views" emptyQuery))).

Definition typesQuery : Query :=
  innerJoin "pg_enum" "pg_enum.enumtypid" "pg_type.oid"
    (from "pg_type"
      (distinct
        (select ["pg_type.typname"] emptyQuery))).

Definition domainsQuery : Query :=
  where_ "pg_type.typtype" "d"
    (innerJoin "pg_namespace" "pg_namespace.oid" "pg_type.typnamespace"
      (from "pg_type"
        (distinct
          (select ["pg_type.typname"] emptyQuery)))).

Section Methods.
Variable C : Client.
Variable config : SharedConfigNode.

Local Open Scope eff_scope.

Definition DbWorld : Type := World (DbState C) ClientCall.
Definition DbM (A : Type) : Type := M (DbState C) ClientCall A.

(** Awaiting a query of the query builder. *)
Definition execQuery (b : Query) : DbM (list Obj) :=
  call (Select b) (runQuery C b).

(** [client.rawQuery(sql)] *)
Definition rawQuery (sql : string) : DbM RawResponse :=
  call (Raw sql) (runRaw C sql).

(** [getAllTables(schemas)] *)
Definition getAllTables (schemas : list string) : DbM (list string) :=
  tables <- execQuery (tablesQuery schemas) ;;
  ret (map (fun r => qualified (prop r "schema") (prop r "table")) tables).

(** [getAllViews(schemas)] *)
Definition getAllViews (schemas : list string) : DbM (list string) :=
  views <- execQuery (viewsQuery schemas) ;;
  ret (map (fun r => qualified (prop r "schema") (prop r "view")) views).

(** [getAllTypes(_schemas)] *)
Definition getAllTypes (_schemas : list string) : DbM (list JsVal) :=
  types <- execQuery typesQuery ;;
  ret (typnames types).

(** [getAllDomains(_schemas)] *)
Definition getAllDomains (_schemas : list string) : DbM (list JsVal) :=
  domains <- execQuery domainsQuery ;;
  ret (typnames domains).

(** [truncate(table, cascade = false)] : [None] is the omitted argument. *)
Definition truncate (table : string) (cascade : option bool) : DbM RawResponse :=
  let cascade := match cascade with Some b => b | None => false end in
  let quotedTable := if startsWith table q then table else q ++ table ++ q in
  if cascade
  then rawQuery ("TRUNCATE " ++ quotedTable ++ " RESTART IDENTITY CASCADE;")
  else rawQuery ("TRUNCATE " ++ quotedTable ++ ";").

(** The callback of the filter of [dropAllTables]. *)
Definition allowedToDrop (table : string) : Completion bool :=
  cbind (extractTableName table) (fun n =>
  Normal (negb (includes (ignoredTables config) n))).

(** [dropAllTables(schemas)] *)
Definition dropAllTables (schemas : list string) : DbM unit :=
  tables <- getAllTables schemas ;;
  tables <- lift (filterC allowedToDrop tables) ;;
  match tables with
  | [] => ret tt
  | _ :: _ =>
      rawQuery ("DROP TABLE " ++ join ", " tables ++ " CASCADE;") ;;;
      ret tt
  end.

(** [dropAllViews(schemas)] *)
Definition dropAllViews (schemas : list string) : DbM unit :=
  views <- getAllViews schemas ;;
  match views with
  | [] => ret tt
  | _ :: _ =>
      rawQuery ("DROP VIEW " ++ join ", " views ++ " CASCADE;") ;;;
      ret tt
  end.

(** The separator of the type and domain lists: a double quote, a comma,
    a space and a double quote. *)
Definition quotedComma : string := q ++ ", " ++ q.

(** [dropAllTypes(schemas)] *)
Definition dropAllTypes (schemas : list string) : DbM unit :=
  types <- getAllTypes schemas ;;
  match types with
  | [] => ret tt
  | _ :: _ =>
      rawQuery ("DROP TYPE " ++ q ++ joinVals quotedComma types ++ q
                ++ " CASCADE;") ;;;
      ret tt
  end.

(** [dropAllDomains(schemas)] *)
Definition dropAllDomains (schemas : list string) : DbM unit :=
  domains <- getAllDomains schemas ;;
  match domains with
  | [] => ret tt
  | _ :: _ =>
      let domainsToDrop :=
        filter (fun domain => negb (includesVal builtInDomains domain)) domains in
      rawQuery ("DROP DOMAIN " ++ q ++ joinVals quotedComma domainsToDrop ++ q
                ++ " CASCADE;") ;;;
      ret tt
  end.

(** [response.rows[0] && response.rows[0].lock_status === true] : a row is
    an object, hence truthy; without a first row the value is
    [undefined]. *)
Definition lockStatus (response : RawResponse) : JsVal :=
  match rows response with
  | [] => JUndefined
  | row :: _ => JBool (strictEqTrue (prop row "lock_status"))
  end.

(** [getAdvisoryLock(key)] *)
Definition getAdvisoryLock (key : string) : DbM JsVal :=
  response <- rawQuery ("SELECT PG_TRY_ADVISORY_LOCK('" ++ key
                        ++ "') as lock_status;") ;;
  ret (lockStatus response).

(** [releaseAdvisoryLock(key)] *)
Definition releaseAdvisoryLock (key : string) : DbM JsVal :=
  response <- rawQuery ("SELECT PG_ADVISORY_UNLOCK('" ++ key
                        ++ "') as lock_status;") ;;
  ret (lockStatus response).

End Methods.



(** The qualified name that [getAllTables] makes of a row. *)
Definition qualifiedRow (r : Obj) : string :=
  qualified (prop r "schema") (prop r "table").

(** A row of the table query whose schema has no dot and whose table has
    neither a dot nor a double quote. *)
Definition plainNames (r : Obj) : Prop :=
  hasChar dot (toString (prop r "schema")) = false
  /\ hasChar dot (toString (prop r "table")) = false
  /\ hasChar dquote (toString (prop r "table")) = false.

(** A row whose table name is not in the ignore-list. *)
Definition notIgnored (config : SharedConfigNode) (r : Obj) : bool :=
  negb (includes (ignoredTables config) (toString (prop r "table"))).

(** The raw statements of a trace, oldest first. *)
Fixpoint rawStatements (t : list ClientCall) : list string :=
  match t with
  | [] => []
  | Raw sql :: rest => sql :: rawStatements rest
  | Select _ :: rest => rawStatements rest
  end.

End PgDialect.

(* ===================================================================== *)
(** ** Concrete collaborators, for running the model *)
(* ===================================================================== *)

Module Scenario.

(** A knex whose state counts the transactions begun so far; transaction
    number [n] gets the handle at address [100 + n]. *)
Definition countingKnex : QueryClient.Knex :=
  QueryClient.mkKnex
    (fun driver => driver)
    (fun _ _ n => (n, Normal tt))
    (fun _ _ _ n => (n, Normal tt))
    (fun _ n => (S n, Normal (ref (100 + n)))).

(** A connection with a read replica: the write handle at address 1, the
    read handle at address 2. *)
Definition replicated : QueryClient.ConnectionContract :=
  QueryClient.mkConnection "primary" "pg" (Some (ref 1)) (Some (ref 2)).

(** Clients of that connection, with the profiler at address 7. *)
Definition readOnly : QueryClient.QueryClient :=
  QueryClient.mkQueryClient QueryClient.read replicated (Some (ref 7)).
Definition writeOnly : QueryClient.QueryClient :=
  QueryClient.mkQueryClient QueryClient.write replicated (Some (ref 7)).

Definition freshKnex : QueryClient.KWorld countingKnex := mkWorld 0 [].

(** A database whose catalog queries all answer [catalog] and whose raw
    statements all answer [response]; its state counts the raw statements
    it has run. *)
Definition scripted (catalog : list Obj) (response : list Obj)
  : PgDialect.Client :=
  PgDialect.mkClient
    (fun _ n => (n, Normal catalog))
    (fun _ n => (S n, Normal (PgDialect.mkRawResponse response))).

Definition fresh (C : PgDialect.Client) (s : PgDialect.DbState C)
  : PgDialect.DbWorld C := mkWorld s [].

Definition defaultConfig : PgDialect.SharedConfigNode :=
  PgDialect.mkConfig None.

(** Rows of the catalog queries. *)
Definition tableRow (schema table : string) : Obj :=
  [("schema", JStr schema); ("table", JStr table)].
Definition typeRow (typname : string) : Obj := [("typname", JStr typname)].

(** A database without any user-defined domain: the domain query answers
    the five domains of the information schema. *)
Definition onlyBuiltInDomains : list Obj :=
  map typeRow PgDialect.builtInDomains.

(** The spatial reference table of a geo extension installed in a schema
    whose name has a dot. *)
Definition dottedSchema : list Obj := [tableRow "geo.data" "spatial_ref_sys"].


End Scenario.

(* ===================================================================== *)
(** ** Vocabulary for the statements sent *)
(* ===================================================================== *)

Module Sent.
Import PgDialect.

(** A name between double quotes. *)
Definition quoted (n : string) : string := q ++ n ++ q.

(** The qualified name that [getAllViews] makes of a row. *)
Definition qualifiedView (r : Obj) : string :=
  qualified (prop r "schema") (prop r "view").

(** The verdict of the filter of [dropAllTables] on a table, when its
    callback returns. *)
Definition keeps (config : SharedConfigNode) (table : string) : bool :=
  match allowedToDrop config table with
  | Normal b => b
  | Abrupt _ => false
  end.

(** The completion of a drop-all method, from that of its raw statement. *)
Definition dropped (r : Completion RawResponse) : Completion unit :=
  cbind r (fun _ => Normal tt).

(** The names of the built-in domains removed from a list of names. *)
Definition userDomains (names : list string) : list string :=
  filter (fun n => negb (includes builtInDomains n)) names.

(** A configuration with an explicit, empty ignore-list. *)
Definition ignoreNothing : SharedConfigNode :=
  mkConfig (Some (mkWipeConfig (Some []))).

(** A database that fails on every raw statement, and answers the catalog
    queries with [catalog]. *)
Definition refusing (catalog : list Obj) (detail : string) : Client :=
  mkClient
    (fun _ (n : nat) => (n, Normal catalog))
    (fun _ (n : nat) => (S n, @Abrupt RawResponse (DriverError detail))).

(** A database whose catalog queries fail. *)
Definition unreachable (detail : string) : Client :=
  mkClient
    (fun _ (n : nat) => (S n, @Abrupt (list Obj) (DriverError detail)))
    (fun _ (n : nat) => (S n, Normal (mkRawResponse []))).

(** Rows of the view query. *)
Definition viewRow (schema view : string) : Obj :=
  [("schema", JStr schema); ("view", JStr view)].

(** A knex that refuses to begin a transaction. *)
Definition refusingKnex : QueryClient.Knex :=
  QueryClient.mkKnex
    (fun driver => driver)
    (fun _ _ (n : nat) => (n, Normal tt))
    (fun _ _ _ (n : nat) => (n, Normal tt))
    (fun _ (n : nat) => (S n, @Abrupt Ref (DriverError "pool exhausted"))).

(** A connection without a read replica: both handles are the same knex. *)
Definition single : QueryClient.ConnectionContract :=
  QueryClient.mkConnection "primary" "pg" (Some (ref 1)) (Some (ref 1)).

(** A connection that was never opened. *)
Definition closed : QueryClient.ConnectionContract :=
  QueryClient.mkConnection "primary" "pg" None None.

End Sent.

(* ===================================================================== *)
(** ** Properties of the query client *)
(* ===================================================================== *)

Unset Implicit Arguments.

Module QueryClientFacts.
Import QueryClient.

(** A pure completion run inside the monad touches neither the state of the
    collaborator nor the trace. *)
Lemma lift_pure {S E A} (c : Completion A) (w : World S E) :
  lift c w = (w, c).
Proof. reflexivity. Qed.

(** An abrupt completion skips the rest of the method. *)
Lemma bind_abrupt {S E A B} (e : Thrown) (k : A -> M S E B) (w : World S E) :
  bind (lift (Abrupt e)) k w = (w, Abrupt e).
Proof. reflexivity. Qed.

Lemma read_has_no_write_client conn prof :
  getWriteClient (mkQueryClient read conn prof) = Abrupt E_RUNTIME_EXCEPTION.
Proof. reflexivity. Qed.

Lemma write_client_when_not_read c :
  mode c <> read -> getWriteClient c = Normal (client (_connection c)).
Proof.
  destruct c as [m conn prof]; destruct m; simpl; intros Hm;
    [reflexivity | reflexivity | congruence].
Qed.

(** C1. In mode read, [getWriteClient()] throws the exception with the fixed
    message, status 500 and code E_RUNTIME_EXCEPTION; it returns no handle,
    and it throws without any call to the database (the state of the
    collaborator and the trace are untouched).  In mode write and in mode
    dual it returns the write handle of the connection. *)
Theorem getWriteClient_by_mode conn prof :
  getWriteClient (mkQueryClient read conn prof)
  = Abrupt (Exception
      "Write client is not available for query client instantiated in read mode"
      500 "E_RUNTIME_EXCEPTION")
  /\ (forall v, getWriteClient (mkQueryClient read conn prof) <> Normal v)
  /\ (forall (K : Knex) (w : KWorld K),
        lift (getWriteClient (mkQueryClient read conn prof)) w
        = (w, Abrupt E_RUNTIME_EXCEPTION))
  /\ getWriteClient (mkQueryClient write conn prof) = Normal (client conn)
  /\ getWriteClient (mkQueryClient dual conn prof) = Normal (client conn).
Proof.
  repeat split; try reflexivity.
  intros v; simpl; discriminate.
Qed.

(** C3, as stated, fails.  On a read-mode client of a connection with a
    read replica, the builder of [query()] is not on the handle that
    [getReadClient()] selects. *)
Lemma query_builder_not_on_read_handle :
  ~ (exists b,
       query Scenario.readOnly = Normal b
       /\ Some (kq_knex (dq_knexQuery b)) = getReadClient Scenario.readOnly).
Proof.
  intros [b [Hq Hh]]. vm_compute in Hq. inversion Hq; subst b.
  vm_compute in Hh. discriminate Hh.
Qed.

(** C3, amended.  In every mode, [query()] and [from(table)] return a
    builder made from the [client] handle of the connection (the write
    handle), bound to this client.  [getReadClient()] selects that handle
    in mode write; in mode read and in mode dual it selects the
    [readClient] handle of the connection, so the builder is on the handle
    that [getReadClient()] selects exactly when [readClient] is that same
    handle.  [insertQuery()] and [table(table)] return a builder on the
    write handle in mode write and in mode dual, and throw the exception of
    [getWriteClient()] in mode read. *)
Theorem factories_bound_to_connection_client m conn prof h t :
  client conn = Some h ->
  let c := mkQueryClient m conn prof in
  query c = Normal (mkDatabaseQueryBuilder (mkKnexQueryBuilder h None) c)
  /\ from c t
     = Normal (mkDatabaseQueryBuilder (mkKnexQueryBuilder h (Some t)) c)
  /\ (m = write -> getReadClient c = Some h)
  /\ (m <> write ->
      getReadClient c = readClient conn
      /\ (getReadClient c = Some h <-> readClient conn = Some h))
  /\ (m <> read ->
      getWriteClient c = Normal (Some h)
      /\ insertQuery c
         = Normal (mkInsertQueryBuilder (mkKnexQueryBuilder h None) c)
      /\ table c t
         = Normal (mkInsertQueryBuilder (mkKnexQueryBuilder h (Some t)) c))
  /\ (m = read ->
      insertQuery c = Abrupt E_RUNTIME_EXCEPTION
      /\ table c t = Abrupt E_RUNTIME_EXCEPTION).
Proof.
  intros Hc c.
  assert (Hq : query c
               = Normal (mkDatabaseQueryBuilder (mkKnexQueryBuilder h None) c)).
  { unfold query, knexQuery; simpl. rewrite Hc. reflexivity. }
  split; [exact Hq|].
  split; [unfold from; rewrite Hq; reflexivity|].
  split; [intros ->; exact Hc|].
  split.
  { intros Hm.
    assert (Hr : getReadClient c = readClient conn)
      by (subst c; destruct m; [reflexivity | congruence | reflexivity]).
    split; [exact Hr | now rewrite Hr]. }
  split.
  - intros Hm.
    assert (Hw : getWriteClient c = Normal (Some h)).
    { rewrite (write_client_when_not_read c Hm). simpl. now rewrite Hc. }
    assert (Hi : insertQuery c
                 = Normal (mkInsertQueryBuilder (mkKnexQueryBuilder h None) c)).
    { unfold insertQuery. rewrite Hw. reflexivity. }
    split; [exact Hw|]. split; [exact Hi|].
    unfold table. rewrite Hi. reflexivity.
  - intros ->. split; reflexivity.
Qed.

Lemma factories_bound_to_connection_client_witness :
  client Scenario.replicated = Some (ref 1)
  /\ query Scenario.writeOnly
     = Normal (mkDatabaseQueryBuilder (mkKnexQueryBuilder (ref 1) None)
                 Scenario.writeOnly).
Proof.
  split; [reflexivity|].
  exact (proj1 (factories_bound_to_connection_client write Scenario.replicated
                  (Some (ref 7)) (ref 1) "users" eq_refl)).
Defined.

Section WithKnex.
Variable K : Knex.

(** On a read-mode client, a method that starts by asking for the write
    client ends there. *)
Lemma needs_write_client_in_read_mode conn prof A
      (k : Ref -> KM K A) (w : KWorld K) :
  bind (lift (cbind (getWriteClient (mkQueryClient read conn prof)) receiver))
       k w
  = (w, Abrupt E_RUNTIME_EXCEPTION).
Proof. reflexivity. Qed.

(** What [transaction()] does once the write handle is known. *)
Lemma transaction_on_handle c h (w : KWorld K) :
  getWriteClient c = Normal (Some h) ->
  transaction K c w
  = match knex_transaction K h (state w) with
    | (s', Normal trx) =>
        (mkWorld s' (trace w ++ [KTransaction h]),
         Normal (mkTransactionClient trx (dialect K c) (connectionName c)
                   (profiler c)))
    | (s', Abrupt e) => (mkWorld s' (trace w ++ [KTransaction h]), Abrupt e)
    end.
Proof.
  intros Hw. unfold transaction, bind, lift, call, ret. rewrite Hw. simpl.
  destruct (knex_transaction K h (state w)) as [s' [trx|e]]; reflexivity.
Qed.

(** Whatever [transaction()] returns carries the profiler of its parent. *)
Lemma transaction_result_profiler c (w w' : KWorld K) t :
  transaction K c w = (w', Normal t) -> tc_profiler t = profiler c.
Proof.
  unfold transaction, bind, lift, call, ret.
  destruct (cbind (getWriteClient c) receiver) as [h|e]; [|discriminate].
  destruct (knex_transaction K h (state w)) as [s' [trx|e]]; [|discriminate].
  intros H. inversion H. reflexivity.
Qed.

End WithKnex.

(** C8. The client that [transaction()] returns holds, as its profiler, the
    very reference the parent client holds (the same address, or
    [undefined] on both sides): this holds of every client it returns, and
    it does return one whenever the write handle is there and knex begins
    the transaction. *)
Theorem transaction_propagates_profiler (K : Knex) c (w : KWorld K) :
  (forall w' t, transaction K c w = (w', Normal t) ->
                tc_profiler t = profiler c)
  /\ (forall h s' trx,
        getWriteClient c = Normal (Some h) ->
        knex_transaction K h (state w) = (s', Normal trx) ->
        exists t,
          transaction K c w
          = (mkWorld s' (trace w ++ [KTransaction h]), Normal t)
          /\ knexClient t = trx
          /\ tc_profiler t = profiler c).
Proof.
  split.
  - intros w' t. apply transaction_result_profiler.
  - intros h s' trx Hw Hk.
    rewrite (transaction_on_handle K c h w Hw), Hk.
    eexists. split; [reflexivity|]. split; reflexivity.
Qed.

Lemma transaction_propagates_profiler_witness :
  exists t,
    transaction Scenario.countingKnex Scenario.writeOnly Scenario.freshKnex
    = (mkWorld 1 [KTransaction (ref 1)], Normal t)
    /\ knexClient t = ref 100
    /\ tc_profiler t = Some (ref 7).
Proof.
  exact (proj2 (transaction_propagates_profiler Scenario.countingKnex
                  Scenario.writeOnly Scenario.freshKnex)
               (ref 1) 1 (ref 100) eq_refl eq_refl).
Defined.

(** C9. On a read-mode client, [truncate], [columnsInfo], [transaction],
    [insertQuery] and [table] all end with the exception of
    [getWriteClient()] (for the three async methods, as the rejection of
    the promise); no call reaches knex, and the state of the collaborator
    and the trace are as before. *)
Theorem write_operations_fail_in_read_mode
        (K : Knex) conn prof t column (w : KWorld K) :
  let c := mkQueryClient read conn prof in
  truncate K c t w = (w, Abrupt E_RUNTIME_EXCEPTION)
  /\ columnsInfo K c t column w = (w, Abrupt E_RUNTIME_EXCEPTION)
  /\ transaction K c w = (w, Abrupt E_RUNTIME_EXCEPTION)
  /\ insertQuery c = Abrupt E_RUNTIME_EXCEPTION
  /\ table c t = Abrupt E_RUNTIME_EXCEPTION
  /\ lift (insertQuery c) w = (w, Abrupt E_RUNTIME_EXCEPTION)
  /\ lift (table c t) w = (w, Abrupt E_RUNTIME_EXCEPTION).
Proof.
  intros c. repeat split; try reflexivity.
Qed.

End QueryClientFacts.

(* ===================================================================== *)
(** ** Properties of the PostgreSQL dialect *)
(* ===================================================================== *)

Module PgDialectFacts.
Import PgDialect.

(** *** Traces *)

Lemma rawStatements_app t u :
  rawStatements (t ++ u) = (rawStatements t ++ rawStatements u)%list.
Proof.
  induction t as [|[b|sql] t IH]; simpl; [reflexivity | exact IH |].
  now rewrite IH.
Qed.

Lemma rawStatements_select t b :
  rawStatements (t ++ [Select b]) = rawStatements t.
Proof. rewrite rawStatements_app. simpl. apply app_nil_r. Qed.

Lemma rawStatements_raw t sql :
  rawStatements (t ++ [Raw sql]) = (rawStatements t ++ [sql])%list.
Proof. now rewrite rawStatements_app. Qed.

(** *** The catalog queries *)

Section Runs.
Variable C : Client.

Lemma getAllDomains_run schemas (w : DbWorld C) :
  getAllDomains C schemas w
  = match runQuery C domainsQuery (state w) with
    | (s1, Normal rows) =>
        (mkWorld s1 (trace w ++ [Select domainsQuery]), Normal (typnames rows))
    | (s1, Abrupt e) => (mkWorld s1 (trace w ++ [Select domainsQuery]), Abrupt e)
    end.
Proof.
  unfold getAllDomains, execQuery, bind, call, ret.
  destruct (runQuery C domainsQuery (state w)) as [s1 [rows|e]]; reflexivity.
Qed.

Lemma getAllTypes_run schemas (w : DbWorld C) :
  getAllTypes C schemas w
  = match runQuery C typesQuery (state w) with
    | (s1, Normal rows) =>
        (mkWorld s1 (trace w ++ [Select typesQuery]), Normal (typnames rows))
    | (s1, Abrupt e) => (mkWorld s1 (trace w ++ [Select typesQuery]), Abrupt e)
    end.
Proof.
  unfold getAllTypes, execQuery, bind, call, ret.
  destruct (runQuery C typesQuery (state w)) as [s1 [rows|e]]; reflexivity.
Qed.

(** The trace of [dropAllDomains] once the catalog has answered with at
    least one row: the catalog query, then one raw statement. *)
Lemma dropAllDomains_trace schemas (w : DbWorld C) s1 rows :
  runQuery C domainsQuery (state w) = (s1, Normal rows) ->
  rows <> [] ->
  trace (fst (dropAllDomains C schemas w))
  = app (trace w)
       [Select domainsQuery;
        Raw ("DROP DOMAIN " ++ q
             ++ joinVals quotedComma
                  (filter (fun d => negb (includesVal builtInDomains d))
                          (typnames rows))
             ++ q ++ " CASCADE;")].
Proof.
  intros Hrun Hne.
  unfold dropAllDomains, bind. rewrite getAllDomains_run, Hrun.
  destruct rows as [|r rows]; [congruence|].
  unfold typnames; simpl map.
  unfold rawQuery, call, ret; simpl state; simpl trace.
  destruct (runRaw C _ s1) as [s2 [resp|e]]; simpl;
    now rewrite <- app_assoc.
Qed.

(** Without a row, the method returns after the catalog query. *)
Lemma dropAllDomains_no_rows schemas (w : DbWorld C) s1 :
  runQuery C domainsQuery (state w) = (s1, Normal []) ->
  dropAllDomains C schemas w
  = (mkWorld s1 (trace w ++ [Select domainsQuery]), Normal tt).
Proof.
  intros Hrun. unfold dropAllDomains, bind.
  rewrite getAllDomains_run, Hrun. reflexivity.
Qed.

(** When the catalog query fails, so does the method, at that point. *)
Lemma dropAllDomains_query_fails schemas (w : DbWorld C) s1 e :
  runQuery C domainsQuery (state w) = (s1, Abrupt e) ->
  dropAllDomains C schemas w
  = (mkWorld s1 (trace w ++ [Select domainsQuery]), Abrupt e).
Proof.
  intros Hrun. unfold dropAllDomains, bind.
  rewrite getAllDomains_run, Hrun. reflexivity.
Qed.

End Runs.

(** *** Membership in the fixed list of built-in domains *)

Lemma includes_In xs x : includes xs x = true <-> In x xs.
Proof.
  unfold includes. rewrite existsb_exists. split.
  - intros [y [Hy He]]. apply String.eqb_eq in He. now subst.
  - intros H. exists x. split; [exact H | apply String.eqb_refl].
Qed.

Lemma includesVal_In xs v :
  includesVal xs v = true <-> exists s, v = JStr s /\ In s xs.
Proof.
  destruct v as [|b|s]; simpl.
  - split; [discriminate | intros [s [H _]]; discriminate].
  - split; [discriminate | intros [s [H _]]; discriminate].
  - rewrite includes_In. split.
    + intros H. exists s. now split.
    + intros [s' [H Hin]]. now inversion H.
Qed.

Lemma not_builtin_kept v :
  negb (includesVal builtInDomains v) = true
  <-> (forall b, In b builtInDomains -> v <> JStr b).
Proof.
  rewrite negb_true_iff. split.
  - intros Hf b Hb ->.
    assert (includesVal builtInDomains (JStr b) = true)
      by (apply includesVal_In; now exists b).
    congruence.
  - intros H. destruct (includesVal builtInDomains v) eqn:E; [|reflexivity].
    apply includesVal_In in E. destruct E as [s [-> Hs]].
    now elim (H s Hs).
Qed.

(** C2, on the code.  In a database without user-defined domains the
    catalog answers the five built-in domains; nothing is left after the
    exclusion, and [dropAllDomains] still sends a statement, a DROP DOMAIN
    of the empty name. *)
Theorem dropAllDomains_sends_empty_drop :
  filter (fun d => negb (includesVal builtInDomains d))
         (typnames Scenario.onlyBuiltInDomains) = []
  /\ rawStatements
       (trace (fst (dropAllDomains (Scenario.scripted Scenario.onlyBuiltInDomains [])
                      ["public"]
                      (Scenario.fresh (Scenario.scripted Scenario.onlyBuiltInDomains []) 0))))
     = ["DROP DOMAIN " ++ q ++ q ++ " CASCADE;"].
Proof. split; reflexivity. Qed.

(** The same on every database: a non-empty catalog answer of built-in
    domains only gives the DROP DOMAIN of the empty name. *)
Lemma dropAllDomains_builtins_only C schemas (w : DbWorld C) s1 rows :
  runQuery C domainsQuery (state w) = (s1, Normal rows) ->
  rows <> [] ->
  (forall v, In v (typnames rows) -> includesVal builtInDomains v = true) ->
  rawStatements (trace (fst (dropAllDomains C schemas w)))
  = app (rawStatements (trace w)) ["DROP DOMAIN " ++ q ++ q ++ " CASCADE;"].
Proof.
  intros Hrun Hne Hall.
  rewrite (dropAllDomains_trace C schemas w s1 rows Hrun Hne).
  assert (Hf : filter (fun d => negb (includesVal builtInDomains d))
                      (typnames rows) = []).
  { induction (typnames rows) as [|v vs IH]; [reflexivity|]. simpl.
    rewrite (Hall v (or_introl eq_refl)). simpl.
    apply IH. intros v' Hv'. apply Hall. now right. }
  rewrite Hf, rawStatements_app. simpl. reflexivity.
Qed.

(** C5. Once the catalog has answered with rows, [dropAllDomains] sends
    one statement, DROP DOMAIN of a list of names joined inside one pair of
    quotes, CASCADE; the names are the catalog names that are none of the
    five built-in domains, so no built-in domain is among them.  When the
    catalog answers cardinal_number and custom_status, the statement is the
    DROP DOMAIN of custom_status alone.  When the catalog answers no row,
    or fails, no statement is sent at all. *)
Theorem dropAllDomains_excludes_builtins C schemas (w : DbWorld C) s1 :
  (forall rows,
     runQuery C domainsQuery (state w) = (s1, Normal rows) ->
     rows <> [] ->
     exists names,
       rawStatements (trace (fst (dropAllDomains C schemas w)))
       = app (rawStatements (trace w))
             ["DROP DOMAIN " ++ q ++ joinVals quotedComma names ++ q
              ++ " CASCADE;"]
       /\ (forall b, In b builtInDomains -> ~ In (JStr b) names)
       /\ (forall v, In v names <->
             In v (typnames rows)
             /\ (forall b, In b builtInDomains -> v <> JStr b)))
  /\ (runQuery C domainsQuery (state w)
      = (s1, Normal [Scenario.typeRow "cardinal_number";
                     Scenario.typeRow "custom_status"]) ->
      rawStatements (trace (fst (dropAllDomains C schemas w)))
      = app (rawStatements (trace w))
            ["DROP DOMAIN " ++ q ++ "custom_status" ++ q ++ " CASCADE;"])
  /\ (runQuery C domainsQuery (state w) = (s1, Normal []) ->
      rawStatements (trace (fst (dropAllDomains C schemas w)))
      = rawStatements (trace w))
  /\ (forall e,
        runQuery C domainsQuery (state w) = (s1, Abrupt e) ->
        rawStatements (trace (fst (dropAllDomains C schemas w)))
        = rawStatements (trace w)).
Proof.
  split; [|split; [|split]].
  - intros rows Hrun Hne.
    exists (filter (fun d => negb (includesVal builtInDomains d)) (typnames rows)).
    split; [|split].
    + rewrite (dropAllDomains_trace C schemas w s1 rows Hrun Hne).
      rewrite rawStatements_app. reflexivity.
    + intros b Hb Hin. apply filter_In in Hin. destruct Hin as [_ Hk].
      exact (proj1 (not_builtin_kept (JStr b)) Hk b Hb eq_refl).
    + intros v. rewrite filter_In, not_builtin_kept. reflexivity.
  - intros Hrun.
    rewrite (dropAllDomains_trace C schemas w s1 _ Hrun) by discriminate.
    rewrite rawStatements_app. reflexivity.
  - intros Hrun. rewrite (dropAllDomains_no_rows C schemas w s1 Hrun).
    apply rawStatements_select.
  - intros e Hrun. rewrite (dropAllDomains_query_fails C schemas w s1 e Hrun).
    apply rawStatements_select.
Qed.

Lemma dropAllDomains_excludes_builtins_witness :
  rawStatements
    (trace (fst (dropAllDomains
                   (Scenario.scripted [Scenario.typeRow "cardinal_number";
                                       Scenario.typeRow "custom_status"] [])
                   ["public"]
                   (Scenario.fresh (Scenario.scripted _ _) 0))))
  = ["DROP DOMAIN " ++ q ++ "custom_status" ++ q ++ " CASCADE;"].
Proof.
  exact (proj1 (proj2 (dropAllDomains_excludes_builtins
                  (Scenario.scripted [Scenario.typeRow "cardinal_number";
                                      Scenario.typeRow "custom_status"] [])
                  ["public"] (Scenario.fresh (Scenario.scripted _ _) 0) 0))
               eq_refl).
Defined.

(** C10. [getAllTypes] and [getAllDomains] do not look at their schema
    list: on the same database, two schema lists give the same run (the
    same query sent, the same rows, the same next state), and the query
    sent has no restriction to a list of schemas. *)
Theorem catalog_type_queries_ignore_schemas
        C (schemas1 schemas2 : list string) (w : DbWorld C) :
  getAllTypes C schemas1 w = getAllTypes C schemas2 w
  /\ getAllDomains C schemas1 w = getAllDomains C schemas2 w
  /\ trace (fst (getAllTypes C schemas1 w)) = (trace w ++ [Select typesQuery])%list
  /\ trace (fst (getAllDomains C schemas1 w)) = (trace w ++ [Select domainsQuery])%list
  /\ q_whereIn typesQuery = None
  /\ q_whereIn domainsQuery = None.
Proof.
  repeat split; try reflexivity.
  - rewrite getAllTypes_run.
    destruct (runQuery C typesQuery (state w)) as [s1 [rows|e]]; reflexivity.
  - rewrite getAllDomains_run.
    destruct (runQuery C domainsQuery (state w)) as [s1 [rows|e]]; reflexivity.
Qed.



(** *** Occurrences of a word in a statement *)

(** A word without the character [c] cannot start before a [c] and end
    after it. *)
Lemma prefix_before_char c sub x y :
  hasChar c sub = false ->
  String.prefix sub (x ++ String c y) = String.prefix sub x.
Proof.
  revert x. induction sub as [|s sub IH]; intros x Hc.
  - now destruct x.
  - simpl in Hc. apply orb_false_iff in Hc. destruct Hc as [Hs Hsub].
    destruct x as [|a x]; simpl.
    + destruct (ascii_dec s c) as [->|_]; [|reflexivity].
      rewrite Ascii.eqb_refl in Hs. discriminate.
    + destruct (ascii_dec s a); [now apply IH | reflexivity].
Qed.

Lemma occursIn_split_at_char c sub x y :
  hasChar c sub = false ->
  occursIn sub (x ++ String c y) = occursIn sub x || occursIn sub y.
Proof.
  intros Hc. induction x as [|a x IH].
  - change (EmptyString ++ String c y) with (String c y).
    cbn [occursIn].
    rewrite <- (prefix_before_char c sub EmptyString y Hc).
    cbn [append]. now rewrite orb_false_r.
  - change (String a x ++ String c y) with (String a (x ++ String c y)).
    cbn [occursIn]. rewrite IH.
    change (String a (x ++ String c y)) with (String a x ++ String c y).
    rewrite (prefix_before_char c sub (String a x) y Hc).
    now rewrite orb_assoc.
Qed.

Lemma occursIn_suffix sub x y :
  occursIn sub y = true -> occursIn sub (x ++ y) = true.
Proof.
  intros Hy. induction x as [|a x IH]; [exact Hy|].
  change (String a x ++ y) with (String a (x ++ y)).
  cbn [occursIn]. rewrite IH. apply orb_true_r.
Qed.

Lemma append_assoc (a b c : string) : (a ++ b) ++ c = a ++ (b ++ c).
Proof. induction a as [|x a IH]; simpl; [reflexivity | now rewrite IH]. Qed.

Lemma append_empty_r (a : string) : a ++ EmptyString = a.
Proof. induction a as [|x a IH]; simpl; [reflexivity | now rewrite IH]. Qed.

(** The table identifier of [truncate]: already quoted or quoted here. *)
Lemma startsWith_quote table :
  (startsWith table q = true /\ exists rest, table = String dquote rest)
  \/ (startsWith table q = false /\ forall rest, table <> String dquote rest).
Proof.
  destruct table as [|a rest].
  - right. split; [reflexivity | discriminate].
  - unfold startsWith, q. cbn [String.prefix].
    destruct (ascii_dec dquote a) as [<-|Hne].
    + left. split; [now destruct rest | now exists rest].
    + right. split; [reflexivity | intros r H; inversion H; congruence].
Qed.

(** The words of the cascade clause occur in the statement without cascade
    only as far as they occur in the table name. *)
Lemma plain_truncate_words word quoted table :
  hasChar dquote word = false ->
  hasChar ";" word = false ->
  occursIn word "TRUNCATE " = false ->
  occursIn word EmptyString = false ->
  (quoted = table /\ (exists rest, table = String dquote rest)
   \/ quoted = q ++ table ++ q) ->
  occursIn word ("TRUNCATE " ++ quoted ++ ";") = occursIn word table.
Proof.
  intros Hq Hs Ht He [[-> [rest ->]] | ->].
  - change ("TRUNCATE " ++ String dquote rest ++ ";")
      with ("TRUNCATE " ++ String dquote (rest ++ String ";" EmptyString)).
    rewrite (occursIn_split_at_char dquote word _ _ Hq), Ht.
    rewrite (occursIn_split_at_char ";"%char word _ _ Hs), He.
    change (String dquote rest) with (EmptyString ++ String dquote rest).
    rewrite (occursIn_split_at_char dquote word _ _ Hq), He.
    now rewrite orb_false_r.
  - unfold q.
    change ("TRUNCATE " ++ (String dquote EmptyString ++ table
                            ++ String dquote EmptyString) ++ ";")
      with ("TRUNCATE " ++ String dquote
              ((table ++ String dquote EmptyString) ++ ";")).
    rewrite append_assoc.
    change (String dquote EmptyString ++ ";") with (String dquote ";").
    rewrite (occursIn_split_at_char dquote word _ _ Hq), Ht.
    rewrite (occursIn_split_at_char dquote word _ _ Hq).
    assert (H : occursIn word ";" = false).
    { change ";" with (EmptyString ++ String ";"%char EmptyString).
      rewrite (occursIn_split_at_char ";"%char word _ _ Hs), He.
      reflexivity. }
    rewrite H. now rewrite orb_false_r.
Qed.

(** C6. [truncate(table, cascade)] sends one statement.  The identifier in
    it is the table name as given when the name starts with a double quote,
    and the name between double quotes otherwise.  With cascade the
    statement is TRUNCATE, the identifier, RESTART IDENTITY CASCADE and a
    semicolon; without cascade (false, or omitted) it is TRUNCATE, the
    identifier and a semicolon, and the words RESTART IDENTITY and CASCADE
    occur in it only if they occur in the table name itself. *)
Theorem truncate_statement C table (w : DbWorld C) :
  exists quoted,
    ((forall rest, table <> String dquote rest) -> quoted = q ++ table ++ q)
    /\ (forall rest, table = String dquote rest -> quoted = table)
    /\ truncate C table (Some true) w
       = rawQuery C ("TRUNCATE " ++ quoted ++ " RESTART IDENTITY CASCADE;") w
    /\ truncate C table (Some false) w
       = rawQuery C ("TRUNCATE " ++ quoted ++ ";") w
    /\ truncate C table None w
       = rawQuery C ("TRUNCATE " ++ quoted ++ ";") w
    /\ (forall sql,
          trace (fst (rawQuery C sql w)) = (trace w ++ [Raw sql])%list)
    /\ occursIn "RESTART IDENTITY"
         ("TRUNCATE " ++ quoted ++ " RESTART IDENTITY CASCADE;") = true
    /\ occursIn "CASCADE"
         ("TRUNCATE " ++ quoted ++ " RESTART IDENTITY CASCADE;") = true
    /\ occursIn "RESTART IDENTITY" ("TRUNCATE " ++ quoted ++ ";")
       = occursIn "RESTART IDENTITY" table
    /\ occursIn "CASCADE" ("TRUNCATE " ++ quoted ++ ";")
       = occursIn "CASCADE" table.
Proof.
  exists (if startsWith table q then table else q ++ table ++ q).
  assert (Hshape :
    (if startsWith table q then table else q ++ table ++ q) = table
      /\ (exists rest, table = String dquote rest)
    \/ (if startsWith table q then table else q ++ table ++ q)
       = q ++ table ++ q).
  { destruct (startsWith_quote table) as [[-> Hr] | [-> _]]; auto. }
  split; [|split; [|split; [|split; [|split; [|split;
    [|split; [|split; [|split]]]]]]]].
  - intros Hn. destruct (startsWith_quote table) as [[_ [r Hr]] | [-> _]];
      [now elim (Hn r) | reflexivity].
  - intros rest Hr. destruct (startsWith_quote table) as [[-> _] | [_ Hn]];
      [reflexivity | now elim (Hn rest)].
  - reflexivity.
  - reflexivity.
  - reflexivity.
  - intros sql. unfold rawQuery, call.
    destruct (runRaw C sql (state w)) as [s1 r]. reflexivity.
  - rewrite <- append_assoc. apply occursIn_suffix. reflexivity.
  - rewrite <- append_assoc. apply occursIn_suffix. reflexivity.
  - apply plain_truncate_words; auto.
  - apply plain_truncate_words; auto.
Qed.

(** *** Dropping tables *)

Lemma hasChar_append c a b :
  hasChar c (a ++ b) = hasChar c a || hasChar c b.
Proof.
  induction a as [|x a IH]; simpl; [reflexivity|].
  now rewrite IH, orb_assoc.
Qed.

Lemma split_without_separator c s :
  hasChar c s = false -> split c s = [s].
Proof.
  induction s as [|a s IH]; simpl; [reflexivity|].
  intros H. apply orb_false_iff in H. destruct H as [Ha Hs].
  now rewrite Ha, (IH Hs).
Qed.

Lemma split_at_separator c a b :
  hasChar c a = false -> split c (a ++ String c b) = a :: split c b.
Proof.
  induction a as [|x a IH]; simpl.
  - intros _. now rewrite Ascii.eqb_refl.
  - intros H. apply orb_false_iff in H. destruct H as [Hx Ha].
    now rewrite Hx, (IH Ha).
Qed.

Lemma removeAll_append c a b :
  removeAll c (a ++ b) = removeAll c a ++ removeAll c b.
Proof.
  induction a as [|x a IH]; simpl; [reflexivity|].
  destruct (Ascii.eqb x c); simpl; now rewrite IH.
Qed.

Lemma removeAll_absent c s : hasChar c s = false -> removeAll c s = s.
Proof.
  induction s as [|a s IH]; simpl; [reflexivity|].
  intros H. apply orb_false_iff in H. destruct H as [Ha Hs].
  now rewrite Ha, (IH Hs).
Qed.

(** The second piece of a quoted, qualified name whose schema part has no
    dot, once its quotes are removed. *)
Lemma second_piece_plain s t :
  hasChar dot s = false ->
  hasChar dot t = false ->
  hasChar dquote t = false ->
  extractTableName (q ++ s ++ q ++ "." ++ q ++ t ++ q) = Normal t.
Proof.
  intros Hs Ht Hq. unfold extractTableName.
  replace (q ++ s ++ q ++ "." ++ q ++ t ++ q)
    with ((q ++ s ++ q) ++ String dot (q ++ t ++ q))
    by (now rewrite !append_assoc).
  rewrite split_at_separator
    by (rewrite !hasChar_append, Hs; reflexivity).
  rewrite split_without_separator
    by (rewrite !hasChar_append, Ht; reflexivity).
  cbn [nth_error].
  change (q ++ t ++ q) with (String dquote (t ++ q)).
  cbn [removeAll]. rewrite Ascii.eqb_refl, removeAll_append.
  rewrite (removeAll_absent dquote t Hq).
  change (removeAll dquote q) with EmptyString.
  now rewrite append_empty_r.
Qed.

(** On a qualified name whose schema has no dot and whose table has
    neither a dot nor a double quote, [extractTableName] gives the table. *)
Lemma extractTableName_plain schema table :
  hasChar dot (toString schema) = false ->
  hasChar dot (toString table) = false ->
  hasChar dquote (toString table) = false ->
  extractTableName (qualified schema table) = Normal (toString table).
Proof. apply second_piece_plain. Qed.

Section DropTables.
Variable C : Client.
Variable config : SharedConfigNode.

Lemma getAllTables_run schemas (w : DbWorld C) :
  getAllTables C schemas w
  = match runQuery C (tablesQuery schemas) (state w) with
    | (s1, Normal rows) =>
        (mkWorld s1 (trace w ++ [Select (tablesQuery schemas)]),
         Normal (map qualifiedRow rows))
    | (s1, Abrupt e) =>
        (mkWorld s1 (trace w ++ [Select (tablesQuery schemas)]), Abrupt e)
    end.
Proof.
  unfold getAllTables, execQuery, bind, call, ret.
  destruct (runQuery C (tablesQuery schemas) (state w)) as [s1 [rows|e]];
    reflexivity.
Qed.

Lemma filter_plain_names rows :
  (forall r, In r rows -> plainNames r) ->
  filterC (allowedToDrop config) (map qualifiedRow rows)
  = Normal (map qualifiedRow (filter (notIgnored config) rows)).
Proof.
  induction rows as [|r rows IH]; intros Hp; [reflexivity|].
  simpl map. cbn [filterC].
  destruct (Hp r (or_introl eq_refl)) as [Hs [Ht Hq]].
  unfold allowedToDrop at 1. unfold qualifiedRow at 1.
  rewrite (extractTableName_plain _ _ Hs Ht Hq). cbn [cbind].
  rewrite IH by (intros r' Hr'; apply Hp; now right).
  cbn [cbind filter]. fold (notIgnored config r).
  destruct (notIgnored config r); reflexivity.
Qed.

(** With plain names, the tables left after the filter are those whose
    name is not in the ignore-list; one DROP TABLE names them all, and
    nothing is sent when none is left. *)
Lemma dropAllTables_plain_names schemas (w : DbWorld C) s1 rows :
  runQuery C (tablesQuery schemas) (state w) = (s1, Normal rows) ->
  (forall r, In r rows -> plainNames r) ->
  rawStatements (trace (fst (dropAllTables C config schemas w)))
  = app (rawStatements (trace w))
        match filter (notIgnored config) rows with
        | [] => []
        | kept =>
            ["DROP TABLE " ++ join ", " (map qualifiedRow kept) ++ " CASCADE;"]
        end.
Proof.
  intros Hrun Hp.
  unfold dropAllTables, bind at 1. rewrite getAllTables_run, Hrun.
  unfold bind, lift. rewrite (filter_plain_names rows Hp).
  destruct (filter (notIgnored config) rows) as [|r kept]; simpl map.
  - unfold ret; simpl. now rewrite rawStatements_select, app_nil_r.
  - unfold rawQuery, call, ret; simpl state; simpl trace.
    destruct (runRaw C _ s1) as [s2 [resp|e]]; simpl fst; simpl trace;
      now rewrite rawStatements_raw, rawStatements_select.
Qed.

End DropTables.

(** C4, on the code.  The table query answers the spatial reference table
    in a schema whose name has a dot; the configuration is the default one,
    whose ignore-list is that very table; [dropAllTables] still sends a
    DROP TABLE that names it, because the piece taken after the first dot
    is the end of the schema name. *)
Theorem dropAllTables_drops_ignored_table_of_dotted_schema :
  ignoredTables Scenario.defaultConfig = ["spatial_ref_sys"]
  /\ extractTableName
       (qualified (JStr "geo.data") (JStr "spatial_ref_sys"))
     = Normal "data"
  /\ rawStatements
       (trace (fst (dropAllTables (Scenario.scripted Scenario.dottedSchema [])
                      Scenario.defaultConfig ["geo.data"]
                      (Scenario.fresh (Scenario.scripted Scenario.dottedSchema []) 0))))
     = ["DROP TABLE " ++ q ++ "geo.data" ++ q ++ "." ++ q ++ "spatial_ref_sys"
        ++ q ++ " CASCADE;"].
Proof. repeat split; reflexivity. Qed.

(** The scenario of the specification, with plain names: of the tables foo
    and spatial_ref_sys of the schema public, only foo is dropped. *)
Example dropAllTables_public_foo :
  rawStatements
    (trace (fst (dropAllTables
                   (Scenario.scripted [Scenario.tableRow "public" "foo";
                                       Scenario.tableRow "public" "spatial_ref_sys"] [])
                   Scenario.defaultConfig ["public"]
                   (Scenario.fresh (Scenario.scripted _ _) 0))))
  = ["DROP TABLE " ++ q ++ "public" ++ q ++ "." ++ q ++ "foo" ++ q
     ++ " CASCADE;"].
Proof. reflexivity. Qed.

End PgDialectFacts.

(* ===================================================================== *)
(** ** Further properties of the query client *)
(* ===================================================================== *)

Module QueryClientMore.
Import QueryClient.

(** Once the write handle is known, a write operation is its knex call. *)
Lemma on_write_handle (K : Knex) A c h (k : Ref -> KM K A) (w : KWorld K) :
  getWriteClient c = Normal (Some h) ->
  bind (lift (cbind (getWriteClient c) receiver)) k w = k h w.
Proof. intros Hw. unfold bind, lift. now rewrite Hw. Qed.

Lemma write_handle_of c h :
  mode c <> read -> client (_connection c) = Some h ->
  getWriteClient c = Normal (Some h).
Proof.
  intros Hm Hc. rewrite (QueryClientFacts.write_client_when_not_read c Hm).
  now rewrite Hc.
Qed.

(** X1. On a connection without a read replica (the read handle is the
    write handle), [query()] is on the handle that [getReadClient()]
    selects, in every mode. *)
Theorem query_on_read_handle_without_replica m n cc h prof :
  let c := mkQueryClient m (mkConnection n cc (Some h) (Some h)) prof in
  getReadClient c = Some h
  /\ exists b,
       query c = Normal b
       /\ Some (kq_knex (dq_knexQuery b)) = getReadClient c
       /\ dq_client b = c.
Proof.
  intros c. split; [now destruct m|].
  eexists. split; [reflexivity|]. split; [now destruct m | reflexivity].
Qed.

(** X2. [raw(sql, bindings)] and [modelQuery(model)] never ask for the
    write client: with the [client] handle of the connection there, they
    return in every mode, read included, a builder on that handle; the
    model builder carries the connection name and the profiler reference of
    the client. *)
Theorem raw_and_model_builders m conn prof h sql bindings model :
  client conn = Some h ->
  let c := mkQueryClient m conn prof in
  raw c sql bindings = Normal (mkRawQueryBuilder (mkKnexRaw h sql bindings) c)
  /\ modelQuery c model
     = Normal (mkModelQueryBuilder (mkKnexQueryBuilder h None) model c
                 (name conn) prof).
Proof.
  intros Hc c. unfold raw, modelQuery, knexQuery, connectionName; simpl.
  rewrite Hc. split; reflexivity.
Qed.

Lemma raw_and_model_builders_witness :
  raw Scenario.readOnly "select 1" None
  = Normal (mkRawQueryBuilder (mkKnexRaw (ref 1) "select 1" None)
              Scenario.readOnly).
Proof.
  exact (proj1 (raw_and_model_builders read Scenario.replicated (Some (ref 7))
                  (ref 1) "select 1" None (ref 9) eq_refl)).
Defined.

(** X3. When the [client] handle of the connection is [undefined], every
    factory throws a [TypeError], and so does every write operation of a
    client in mode write or dual, before any call to knex. *)
Theorem undefined_client_handle
        (K : Knex) m (dualMode : bool) n cc rc prof t column sql bindings model
        (w : KWorld K) :
  let conn := mkConnection n cc None rc in
  let c := mkQueryClient m conn prof in
  let cw := mkQueryClient (if dualMode then dual else write) conn prof in
  knexQuery c = Abrupt TypeError
  /\ query c = Abrupt TypeError
  /\ from c t = Abrupt TypeError
  /\ raw c sql bindings = Abrupt TypeError
  /\ modelQuery c model = Abrupt TypeError
  /\ insertQuery cw = Abrupt TypeError
  /\ table cw t = Abrupt TypeError
  /\ truncate K cw t w = (w, Abrupt TypeError)
  /\ columnsInfo K cw t column w = (w, Abrupt TypeError)
  /\ transaction K cw w = (w, Abrupt TypeError).
Proof.
  intros conn c cw. repeat (split; [reflexivity|]).
  subst cw. destruct dualMode; repeat split; reflexivity.
Qed.

(** X4. The write operations do not depend on the read handle of the
    connection: with another read handle, or none, [truncate],
    [columnsInfo] and [transaction] run the same. *)
Theorem write_operations_ignore_read_handle
        (K : Knex) m n cc cl rc rc' prof t column (w : KWorld K) :
  let c := mkQueryClient m (mkConnection n cc cl rc) prof in
  let c' := mkQueryClient m (mkConnection n cc cl rc') prof in
  truncate K c t w = truncate K c' t w
  /\ columnsInfo K c t column w = columnsInfo K c' t column w
  /\ transaction K c w = transaction K c' w.
Proof.
  intros c c'. destruct m; repeat split; reflexivity.
Qed.

(** X5. On a client in mode write or dual whose write handle is there,
    [truncate(table)] makes one call to knex, on the write handle: the
    chain [select(table).truncate()], its argument passed to [select].  It
    completes as that call does. *)
Theorem truncate_is_one_call_on_write_handle
        (K : Knex) c h t (w : KWorld K) :
  mode c <> read ->
  client (_connection c) = Some h ->
  truncate K c t w
  = (mkWorld (fst (knex_truncate K h t (state w)))
       (trace w ++ [KTruncate h t]),
     snd (knex_truncate K h t (state w))).
Proof.
  intros Hm Hc. unfold truncate.
  rewrite (on_write_handle K _ c h _ w (write_handle_of c h Hm Hc)).
  unfold call. now destruct (knex_truncate K h t (state w)).
Qed.

Lemma truncate_is_one_call_on_write_handle_witness :
  truncate Scenario.countingKnex Scenario.writeOnly "users" Scenario.freshKnex
  = (mkWorld 0 [KTruncate (ref 1) "users"], Normal tt).
Proof.
  refine (truncate_is_one_call_on_write_handle Scenario.countingKnex
            Scenario.writeOnly (ref 1) "users" Scenario.freshKnex _ eq_refl).
  simpl. discriminate.
Defined.

(** X6. On a client in mode write or dual whose write handle is there,
    [columnsInfo(table, column)] makes one call to knex, on the write
    handle, its first argument passed to [select]: the chain
    [select(table).columnInfo(column)] when the column is a non-empty
    string, and [select(table).columnInfo()] when the column is omitted.
    An empty string as column runs exactly as an omitted one.  The method
    completes as the call does. *)
Theorem columnsInfo_column_or_table
        (K : Knex) c h t (w : KWorld K) :
  mode c <> read ->
  client (_connection c) = Some h ->
  (forall a rest,
     columnsInfo K c t (Some (String a rest)) w
     = (mkWorld
          (fst (knex_columnInfo K h t (Some (String a rest)) (state w)))
          (trace w ++ [KColumnInfo h t (Some (String a rest))]),
        snd (knex_columnInfo K h t (Some (String a rest)) (state w))))
  /\ columnsInfo K c t None w
     = (mkWorld (fst (knex_columnInfo K h t None (state w)))
          (trace w ++ [KColumnInfo h t None]),
        snd (knex_columnInfo K h t None (state w)))
  /\ columnsInfo K c t (Some EmptyString) w = columnsInfo K c t None w.
Proof.
  intros Hm Hc. pose proof (write_handle_of c h Hm Hc) as Hw.
  assert (Hrun : forall column,
    columnsInfo K c t column w
    = (if truthy column
       then call (KColumnInfo h t column) (knex_columnInfo K h t column)
       else call (KColumnInfo h t None) (knex_columnInfo K h t None)) w).
  { intros column. unfold columnsInfo.
    now rewrite (on_write_handle K _ c h _ w Hw). }
  split; [|split].
  - intros a rest. rewrite Hrun. cbn [truthy]. unfold call.
    now destruct (knex_columnInfo K h t (Some (String a rest)) (state w)).
  - rewrite Hrun. cbn [truthy]. unfold call.
    now destruct (knex_columnInfo K h t None (state w)).
  - now rewrite !Hrun.
Qed.

Lemma columnsInfo_column_or_table_witness :
  columnsInfo Scenario.countingKnex Scenario.writeOnly "users"
              (Some EmptyString) Scenario.freshKnex
  = columnsInfo Scenario.countingKnex Scenario.writeOnly "users" None
                Scenario.freshKnex.
Proof.
  refine (proj2 (proj2 (columnsInfo_column_or_table Scenario.countingKnex
            Scenario.writeOnly (ref 1) "users" Scenario.freshKnex _ eq_refl))).
  simpl. discriminate.
Defined.

(** X7. On a client in mode write or dual whose write handle is there,
    [transaction()] makes one call to knex, on the write handle.  When knex
    begins the transaction, the client returned wraps it and has the
    dialect and the connection name of its parent; when knex fails, so does
    [transaction()], with the error of knex, and no client is returned. *)
Theorem transaction_outcome (K : Knex) c h (w : KWorld K) :
  mode c <> read ->
  client (_connection c) = Some h ->
  trace (fst (transaction K c w)) = (trace w ++ [KTransaction h])%list
  /\ state (fst (transaction K c w)) = fst (knex_transaction K h (state w))
  /\ (forall trx,
        snd (knex_transaction K h (state w)) = Normal trx ->
        exists t,
          snd (transaction K c w) = Normal t
          /\ knexClient t = trx
          /\ tc_dialect t
             = resolveClientNameWithAliases K (config_client (_connection c))
          /\ tc_connectionName t = name (_connection c))
  /\ (forall e,
        snd (knex_transaction K h (state w)) = Abrupt e ->
        snd (transaction K c w) = Abrupt e).
Proof.
  intros Hm Hc.
  rewrite (QueryClientFacts.transaction_on_handle K c h w
             (write_handle_of c h Hm Hc)).
  destruct (knex_transaction K h (state w)) as [s' [trx|e]]; simpl;
    repeat split; try reflexivity.
  - intros trx' H. inversion H; subst trx'. eexists.
    split; [reflexivity|]. repeat split; reflexivity.
  - intros e H. discriminate H.
  - intros trx H. discriminate H.
  - intros e' H. now inversion H.
Qed.

Lemma transaction_outcome_witness :
  snd (transaction Sent.refusingKnex Scenario.writeOnly (mkWorld 0 []))
  = Abrupt (DriverError "pool exhausted").
Proof.
  refine (proj2 (proj2 (proj2 (transaction_outcome Sent.refusingKnex
            Scenario.writeOnly (ref 1) (mkWorld 0 []) _ eq_refl)))
            (DriverError "pool exhausted") eq_refl).
  simpl. discriminate.
Defined.

End QueryClientMore.

(* ===================================================================== *)
(** ** Further properties of the PostgreSQL dialect *)
(* ===================================================================== *)

Module PgDialectMore.
Import PgDialect Sent PgDialectFacts.

(** *** Pieces shared by the drop-all methods *)

(** Sending the one DROP statement and returning. *)
Lemma send_drop (C : Client) sql (w : DbWorld C) :
  bind (rawQuery C sql) (fun _ => ret tt) w
  = (mkWorld (fst (runRaw C sql (state w))) (trace w ++ [Raw sql]),
     dropped (snd (runRaw C sql (state w)))).
Proof.
  unfold bind, rawQuery, call, ret, dropped.
  destruct (runRaw C sql (state w)) as [s2 [resp|e]]; reflexivity.
Qed.

Lemma getAllViews_run (C : Client) schemas (w : DbWorld C) :
  getAllViews C schemas w
  = match runQuery C (viewsQuery schemas) (state w) with
    | (s1, Normal rows) =>
        (mkWorld s1 (trace w ++ [Select (viewsQuery schemas)]),
         Normal (map qualifiedView rows))
    | (s1, Abrupt e) =>
        (mkWorld s1 (trace w ++ [Select (viewsQuery schemas)]), Abrupt e)
    end.
Proof.
  unfold getAllViews, execQuery, bind, call, ret.
  destruct (runQuery C (viewsQuery schemas) (state w)) as [s1 [rows|e]];
    reflexivity.
Qed.

(** *** The second piece of a qualified name is always there *)

Lemma split_nonempty c s : split c s <> [].
Proof.
  destruct s as [|a s]; simpl; [discriminate|].
  destruct (Ascii.eqb a c); [discriminate|].
  destruct (split c s); discriminate.
Qed.

Lemma split_two_pieces c a b :
  exists p1 p2 rest, split c (a ++ String c b) = p1 :: p2 :: rest.
Proof.
  induction a as [|x a [p1 [p2 [rest IH]]]]; simpl.
  - rewrite Ascii.eqb_refl.
    destruct (split c b) as [|p2 rest] eqn:E; [now elim (split_nonempty c b)|].
    now exists EmptyString, p2, rest.
  - destruct (Ascii.eqb x c).
    + rewrite IH. now exists EmptyString, p1, (p2 :: rest).
    + rewrite IH. now exists (String x p1), p2, rest.
Qed.

Lemma extractTableName_defined schema table :
  exists n, extractTableName (qualified schema table) = Normal n.
Proof.
  unfold extractTableName, qualified.
  replace (q ++ toString schema ++ q ++ "." ++ q ++ toString table ++ q)
    with ((q ++ toString schema ++ q) ++ String dot (q ++ toString table ++ q))
    by (now rewrite !append_assoc).
  destruct (split_two_pieces dot (q ++ toString schema ++ q)
              (q ++ toString table ++ q)) as [p1 [p2 [rest ->]]].
  now exists (removeAll dquote p2).
Qed.

Lemma filterC_filter A (keep : A -> Completion bool) (keepb : A -> bool) xs :
  (forall x, In x xs -> keep x = Normal (keepb x)) ->
  filterC keep xs = Normal (filter keepb xs).
Proof.
  induction xs as [|x xs IH]; intros H; [reflexivity|].
  cbn [filterC filter]. rewrite (H x (or_introl eq_refl)). cbn [cbind].
  rewrite IH by (intros y Hy; apply H; now right).
  reflexivity.
Qed.

(** The filter of [dropAllTables] returns on the names that
    [getAllTables] makes. *)
Lemma filter_of_discovered config rows :
  filterC (allowedToDrop config) (map qualifiedRow rows)
  = Normal (filter (keeps config) (map qualifiedRow rows)).
Proof.
  apply filterC_filter. intros x Hx.
  apply in_map_iff in Hx. destruct Hx as [r [<- _]].
  unfold keeps, allowedToDrop, qualifiedRow.
  destruct (extractTableName_defined (prop r "schema") (prop r "table"))
    as [n ->].
  reflexivity.
Qed.

(** [dropAllTables] once the table query has answered. *)
Lemma dropAllTables_run (C : Client) config schemas (w : DbWorld C) s1 rows :
  runQuery C (tablesQuery schemas) (state w) = (s1, Normal rows) ->
  dropAllTables C config schemas w
  = match filter (keeps config) (map qualifiedRow rows) with
    | [] =>
        (mkWorld s1 (trace w ++ [Select (tablesQuery schemas)]), Normal tt)
    | kept =>
        bind (rawQuery C ("DROP TABLE " ++ join ", " kept ++ " CASCADE;"))
             (fun _ => ret tt)
             (mkWorld s1 (trace w ++ [Select (tablesQuery schemas)]))
    end.
Proof.
  intros Hrun. unfold dropAllTables, bind at 1.
  rewrite getAllTables_run, Hrun.
  unfold bind at 1, lift. rewrite filter_of_discovered.
  destruct (filter (keeps config) (map qualifiedRow rows)); reflexivity.
Qed.

(** X8. Whatever the names in the catalog, once the table query has
    answered, [dropAllTables] does not throw on its own: it sends at most
    one statement, a DROP TABLE of tables that the query answered, none
    when no table is left, and it completes as that statement does. *)
Theorem dropAllTables_drops_only_discovered
        (C : Client) config schemas (w : DbWorld C) s1 rows :
  runQuery C (tablesQuery schemas) (state w) = (s1, Normal rows) ->
  exists kept,
    (forall n, In n kept -> In n (map qualifiedRow rows))
    /\ rawStatements (trace (fst (dropAllTables C config schemas w)))
       = app (rawStatements (trace w))
             match kept with
             | [] => []
             | _ => ["DROP TABLE " ++ join ", " kept ++ " CASCADE;"]
             end
    /\ snd (dropAllTables C config schemas w)
       = match kept with
         | [] => Normal tt
         | _ =>
             dropped
               (snd (runRaw C ("DROP TABLE " ++ join ", " kept ++ " CASCADE;")
                           s1))
         end.
Proof.
  intros Hrun.
  exists (filter (keeps config) (map qualifiedRow rows)).
  split; [intros n Hn; now apply filter_In in Hn|].
  rewrite (dropAllTables_run C config schemas w s1 rows Hrun).
  destruct (filter (keeps config) (map qualifiedRow rows)) as [|k kept].
  - simpl. now rewrite rawStatements_select, app_nil_r.
  - rewrite send_drop. cbn [fst snd trace state].
    now rewrite rawStatements_raw, rawStatements_select.
Qed.

Lemma dropAllTables_drops_only_discovered_witness :
  exists kept,
    (forall n, In n kept -> In n (map qualifiedRow Scenario.dottedSchema))
    /\ rawStatements
         (trace (fst (dropAllTables (refusing Scenario.dottedSchema "denied")
                        Scenario.defaultConfig ["geo.data"]
                        (Scenario.fresh (refusing Scenario.dottedSchema "denied") 0))))
       = app []
             match kept with
             | [] => []
             | _ => ["DROP TABLE " ++ join ", " kept ++ " CASCADE;"]
             end
    /\ snd (dropAllTables (refusing Scenario.dottedSchema "denied")
              Scenario.defaultConfig ["geo.data"]
              (Scenario.fresh (refusing Scenario.dottedSchema "denied") 0))
       = match kept with
         | [] => Normal tt
         | _ =>
             dropped
               (snd (runRaw (refusing Scenario.dottedSchema "denied")
                       ("DROP TABLE " ++ join ", " kept ++ " CASCADE;") 0))
         end.
Proof.
  exact (dropAllTables_drops_only_discovered
           (refusing Scenario.dottedSchema "denied") Scenario.defaultConfig
           ["geo.data"] (Scenario.fresh (refusing Scenario.dottedSchema "denied") 0)
           0 Scenario.dottedSchema eq_refl).
Defined.

(** With an empty ignore-list, the filter keeps every name. *)
Lemma keeps_all_when_nothing_ignored rows :
  filter (keeps ignoreNothing) (map qualifiedRow rows) = map qualifiedRow rows.
Proof.
  induction rows as [|r rows IH]; [reflexivity|].
  cbn [map filter]. rewrite IH.
  unfold keeps, allowedToDrop at 1, qualifiedRow at 1.
  destruct (extractTableName_defined (prop r "schema") (prop r "table"))
    as [n ->].
  reflexivity.
Qed.

(** X9. An explicit empty ignore-list is used as it is, not replaced by the
    default one: [dropAllTables] then drops every table that the query
    answered, the spatial reference table included. *)
Theorem dropAllTables_empty_ignore_list
        (C : Client) schemas (w : DbWorld C) s1 r rows :
  runQuery C (tablesQuery schemas) (state w) = (s1, Normal (r :: rows)) ->
  ignoredTables ignoreNothing = []
  /\ rawStatements (trace (fst (dropAllTables C ignoreNothing schemas w)))
     = app (rawStatements (trace w))
           ["DROP TABLE " ++ join ", " (map qualifiedRow (r :: rows))
            ++ " CASCADE;"].
Proof.
  intros Hrun. split; [reflexivity|].
  rewrite (dropAllTables_run C ignoreNothing schemas w s1 _ Hrun).
  rewrite keeps_all_when_nothing_ignored. cbn [map].
  rewrite send_drop. cbn [fst trace].
  now rewrite rawStatements_raw, rawStatements_select.
Qed.

Lemma dropAllTables_empty_ignore_list_witness :
  rawStatements
    (trace (fst (dropAllTables
                   (Scenario.scripted [Scenario.tableRow "public" "spatial_ref_sys"] [])
                   ignoreNothing ["public"]
                   (Scenario.fresh (Scenario.scripted _ _) 0))))
  = ["DROP TABLE " ++ q ++ "public" ++ q ++ "." ++ q ++ "spatial_ref_sys" ++ q
     ++ " CASCADE;"].
Proof.
  exact (proj2 (dropAllTables_empty_ignore_list
                  (Scenario.scripted [Scenario.tableRow "public" "spatial_ref_sys"] [])
                  ["public"] (Scenario.fresh (Scenario.scripted _ _) 0) 0
                  (Scenario.tableRow "public" "spatial_ref_sys") [] eq_refl)).
Defined.

(** X10. When no schema name that the table query answers has a dot, and
    no table name has a dot or a double quote, [dropAllTables] keeps
    exactly the tables whose name is not in the ignore-list of the
    configuration (the default list when none is configured); it sends one
    DROP TABLE of their qualified names, in the order of the answer, and no
    statement when none is kept. *)
Theorem dropAllTables_honours_ignore_list
        (C : Client) config schemas (w : DbWorld C) s1 rows :
  runQuery C (tablesQuery schemas) (state w) = (s1, Normal rows) ->
  (forall r, In r rows -> plainNames r) ->
  (forall r,
     In r (filter (notIgnored config) rows)
     <-> In r rows
         /\ ~ In (toString (prop r "table")) (ignoredTables config))
  /\ rawStatements (trace (fst (dropAllTables C config schemas w)))
     = app (rawStatements (trace w))
           match filter (notIgnored config) rows with
           | [] => []
           | kept =>
               ["DROP TABLE " ++ join ", " (map qualifiedRow kept)
                ++ " CASCADE;"]
           end.
Proof.
  intros Hrun Hplain. split.
  - intros r. rewrite filter_In. unfold notIgnored.
    rewrite negb_true_iff, <- not_true_iff_false, includes_In. reflexivity.
  - rewrite (dropAllTables_run C config schemas w s1 rows Hrun).
    assert (Hkept : filter (keeps config) (map qualifiedRow rows)
                    = map qualifiedRow (filter (notIgnored config) rows)).
    { clear Hrun. induction rows as [|r rows IH]; [reflexivity|].
      cbn [map filter].
      rewrite IH by (intros r' Hr'; apply Hplain; now right).
      destruct (Hplain r (or_introl eq_refl)) as [Hs [Ht Hq]].
      unfold keeps at 1, allowedToDrop, qualifiedRow at 1.
      rewrite (extractTableName_plain _ _ Hs Ht Hq). cbn [cbind].
      fold (notIgnored config r).
      destruct (notIgnored config r); reflexivity. }
    rewrite Hkept.
    destruct (filter (notIgnored config) rows) as [|k kept]; cbn [map].
    + simpl. now rewrite rawStatements_select, app_nil_r.
    + rewrite send_drop. cbn [fst trace].
      now rewrite rawStatements_raw, rawStatements_select.
Qed.

Lemma dropAllTables_honours_ignore_list_witness :
  rawStatements
    (trace (fst (dropAllTables
                   (Scenario.scripted [Scenario.tableRow "public" "foo";
                                       Scenario.tableRow "public" "spatial_ref_sys"] [])
                   Scenario.defaultConfig ["public"]
                   (Scenario.fresh (Scenario.scripted _ _) 0))))
  = ["DROP TABLE " ++ q ++ "public" ++ q ++ "." ++ q ++ "foo" ++ q
     ++ " CASCADE;"].
Proof.
  refine (proj2 (dropAllTables_honours_ignore_list
            (Scenario.scripted [Scenario.tableRow "public" "foo";
                                Scenario.tableRow "public" "spatial_ref_sys"] [])
            Scenario.defaultConfig ["public"]
            (Scenario.fresh (Scenario.scripted _ _) 0) 0
            [Scenario.tableRow "public" "foo";
             Scenario.tableRow "public" "spatial_ref_sys"] eq_refl _)).
  intros r [<- | [<- | []]]; repeat split; reflexivity.
Defined.

(** *** Views *)

Lemma dropAllViews_run (C : Client) schemas (w : DbWorld C) s1 rows :
  runQuery C (viewsQuery schemas) (state w) = (s1, Normal rows) ->
  dropAllViews C schemas w
  = match map qualifiedView rows with
    | [] => (mkWorld s1 (trace w ++ [Select (viewsQuery schemas)]), Normal tt)
    | views =>
        bind (rawQuery C ("DROP VIEW " ++ join ", " views ++ " CASCADE;"))
             (fun _ => ret tt)
             (mkWorld s1 (trace w ++ [Select (viewsQuery schemas)]))
    end.
Proof.
  intros Hrun. unfold dropAllViews, bind at 1.
  rewrite getAllViews_run, Hrun.
  destruct (map qualifiedView rows); reflexivity.
Qed.

(** X11. Once the view query has answered, [dropAllViews] sends nothing
    when there is no view, and otherwise one DROP VIEW of every view that
    the query answered, in the order of the answer, whatever the ignore-list
    of the configuration; it completes as that statement does. *)
Theorem dropAllViews_drops_every_view
        (C : Client) schemas (w : DbWorld C) s1 rows :
  runQuery C (viewsQuery schemas) (state w) = (s1, Normal rows) ->
  rawStatements (trace (fst (dropAllViews C schemas w)))
  = app (rawStatements (trace w))
        match rows with
        | [] => []
        | _ => ["DROP VIEW " ++ join ", " (map qualifiedView rows)
                ++ " CASCADE;"]
        end
  /\ snd (dropAllViews C schemas w)
     = match rows with
       | [] => Normal tt
       | _ =>
           dropped
             (snd (runRaw C ("DROP VIEW " ++ join ", " (map qualifiedView rows)
                             ++ " CASCADE;") s1))
       end.
Proof.
  intros Hrun. rewrite (dropAllViews_run C schemas w s1 rows Hrun).
  destruct rows as [|r rows]; cbn [map].
  - simpl. rewrite rawStatements_select, app_nil_r. now split.
  - rewrite send_drop. cbn [fst snd trace state].
    rewrite rawStatements_raw, rawStatements_select. now split.
Qed.

Lemma dropAllViews_drops_every_view_witness :
  rawStatements
    (trace (fst (dropAllViews
                   (Scenario.scripted [viewRow "public" "active_users";
                                       viewRow "public" "spatial_ref_sys"] [])
                   ["public"] (Scenario.fresh (Scenario.scripted _ _) 0))))
  = ["DROP VIEW " ++ q ++ "public" ++ q ++ "." ++ q ++ "active_users" ++ q
     ++ ", " ++ q ++ "public" ++ q ++ "." ++ q ++ "spatial_ref_sys" ++ q
     ++ " CASCADE;"].
Proof.
  exact (proj1 (dropAllViews_drops_every_view
                  (Scenario.scripted [viewRow "public" "active_users";
                                      viewRow "public" "spatial_ref_sys"] [])
                  ["public"] (Scenario.fresh (Scenario.scripted _ _) 0) 0
                  [viewRow "public" "active_users";
                   viewRow "public" "spatial_ref_sys"] eq_refl)).
Defined.

(** *** Types and domains: how the names end up quoted *)

(** Joining names with quote, comma, space, quote inside one pair of quotes
    is joining the quoted names with comma and space. *)
Lemma join_inside_quotes names :
  names <> [] ->
  q ++ join quotedComma names ++ q = join ", " (map quoted names).
Proof.
  intros Hne. induction names as [|x names IH]; [congruence|].
  destruct names as [|y names].
  - reflexivity.
  - change (join quotedComma (x :: y :: names))
      with (x ++ quotedComma ++ join quotedComma (y :: names)).
    change (join ", " (map quoted (x :: y :: names)))
      with (quoted x ++ ", " ++ join ", " (map quoted (y :: names))).
    rewrite <- IH by discriminate.
    unfold quoted, quotedComma. now rewrite !append_assoc.
Qed.

Lemma joinVals_strings sep names :
  joinVals sep (map JStr names) = join sep names.
Proof.
  unfold joinVals. rewrite map_map. f_equal.
  transitivity (map (fun x : string => x) names);
    [apply map_ext; reflexivity | apply map_id].
Qed.

Lemma user_domains_of_strings names :
  filter (fun d => negb (includesVal builtInDomains d)) (map JStr names)
  = map JStr (userDomains names).
Proof.
  unfold userDomains.
  induction names as [|x names IH]; [reflexivity|].
  cbn [map filter includesVal].
  destruct (negb (includes builtInDomains x)); cbn [map]; now rewrite IH.
Qed.

Lemma dropAllTypes_run (C : Client) schemas (w : DbWorld C) s1 rows :
  runQuery C typesQuery (state w) = (s1, Normal rows) ->
  dropAllTypes C schemas w
  = match typnames rows with
    | [] => (mkWorld s1 (trace w ++ [Select typesQuery]), Normal tt)
    | types =>
        bind (rawQuery C ("DROP TYPE " ++ q ++ joinVals quotedComma types ++ q
                          ++ " CASCADE;"))
             (fun _ => ret tt)
             (mkWorld s1 (trace w ++ [Select typesQuery]))
    end.
Proof.
  intros Hrun. unfold dropAllTypes, bind at 1.
  rewrite getAllTypes_run, Hrun.
  destruct (typnames rows); reflexivity.
Qed.

(** X12. When the type query answers string names, [dropAllTypes] sends
    nothing for an empty answer, and otherwise one DROP TYPE in which every
    name stands between its own double quotes, the quoted names being
    separated by a comma and a space. *)
Theorem dropAllTypes_quotes_each_name
        (C : Client) schemas (w : DbWorld C) s1 rows names :
  runQuery C typesQuery (state w) = (s1, Normal rows) ->
  typnames rows = map JStr names ->
  rawStatements (trace (fst (dropAllTypes C schemas w)))
  = app (rawStatements (trace w))
        match names with
        | [] => []
        | _ => ["DROP TYPE " ++ join ", " (map quoted names) ++ " CASCADE;"]
        end.
Proof.
  intros Hrun Hnames.
  rewrite (dropAllTypes_run C schemas w s1 rows Hrun), Hnames.
  destruct names as [|n names]; cbn [map].
  - simpl. now rewrite rawStatements_select, app_nil_r.
  - rewrite send_drop. cbn [fst trace].
    rewrite rawStatements_raw, rawStatements_select.
    change (JStr n :: map JStr names) with (map JStr (n :: names)).
    change (quoted n :: map quoted names) with (map quoted (n :: names)).
    rewrite joinVals_strings.
    rewrite <- (join_inside_quotes (n :: names)) by discriminate.
    now rewrite !append_assoc.
Qed.

Lemma dropAllTypes_quotes_each_name_witness :
  rawStatements
    (trace (fst (dropAllTypes
                   (Scenario.scripted [Scenario.typeRow "mood";
                                       Scenario.typeRow "order_status"] [])
                   ["public"] (Scenario.fresh (Scenario.scripted _ _) 0))))
  = ["DROP TYPE " ++ q ++ "mood" ++ q ++ ", " ++ q ++ "order_status" ++ q
     ++ " CASCADE;"].
Proof.
  exact (dropAllTypes_quotes_each_name
           (Scenario.scripted [Scenario.typeRow "mood";
                               Scenario.typeRow "order_status"] [])
           ["public"] (Scenario.fresh (Scenario.scripted _ _) 0) 0
           [Scenario.typeRow "mood"; Scenario.typeRow "order_status"]
           ["mood"; "order_status"] eq_refl eq_refl).
Defined.

(** X13. When the domain query answers string names of which at least one
    is not a built-in domain, [dropAllDomains] sends one DROP DOMAIN in
    which every such name stands between its own double quotes, in the
    order of the answer. *)
Theorem dropAllDomains_quotes_each_name
        (C : Client) schemas (w : DbWorld C) s1 rows names :
  runQuery C domainsQuery (state w) = (s1, Normal rows) ->
  typnames rows = map JStr names ->
  userDomains names <> [] ->
  rawStatements (trace (fst (dropAllDomains C schemas w)))
  = app (rawStatements (trace w))
        ["DROP DOMAIN " ++ join ", " (map quoted (userDomains names))
         ++ " CASCADE;"].
Proof.
  intros Hrun Hnames Hne.
  assert (Hrows : rows <> []).
  { intros ->. destruct names; [now apply Hne | discriminate]. }
  rewrite (dropAllDomains_trace C schemas w s1 rows Hrun Hrows).
  rewrite rawStatements_app. cbn [rawStatements].
  rewrite Hnames, user_domains_of_strings, joinVals_strings.
  rewrite <- (join_inside_quotes (userDomains names) Hne).
  now rewrite !append_assoc.
Qed.

Lemma dropAllDomains_quotes_each_name_witness :
  rawStatements
    (trace (fst (dropAllDomains
                   (Scenario.scripted [Scenario.typeRow "email";
                                       Scenario.typeRow "yes_or_no";
                                       Scenario.typeRow "us_postal_code"] [])
                   ["public"] (Scenario.fresh (Scenario.scripted _ _) 0))))
  = ["DROP DOMAIN " ++ q ++ "email" ++ q ++ ", " ++ q ++ "us_postal_code" ++ q
     ++ " CASCADE;"].
Proof.
  refine (dropAllDomains_quotes_each_name
            (Scenario.scripted [Scenario.typeRow "email";
                                Scenario.typeRow "yes_or_no";
                                Scenario.typeRow "us_postal_code"] [])
            ["public"] (Scenario.fresh (Scenario.scripted _ _) 0) 0
            [Scenario.typeRow "email"; Scenario.typeRow "yes_or_no";
             Scenario.typeRow "us_postal_code"]
            ["email"; "yes_or_no"; "us_postal_code"] eq_refl eq_refl _).
  discriminate.
Defined.

(** *** When the catalog query fails *)

(** X14. When the catalog query of [dropAllTables], [dropAllViews] or
    [dropAllTypes] fails, the method fails with the error of the query,
    and no DROP statement is sent. *)
Theorem catalog_failure_stops_drop
        (C : Client) config schemas (w : DbWorld C) s1 e :
  (runQuery C (tablesQuery schemas) (state w) = (s1, Abrupt e) ->
   dropAllTables C config schemas w
   = (mkWorld s1 (trace w ++ [Select (tablesQuery schemas)]), Abrupt e))
  /\ (runQuery C (viewsQuery schemas) (state w) = (s1, Abrupt e) ->
      dropAllViews C schemas w
      = (mkWorld s1 (trace w ++ [Select (viewsQuery schemas)]), Abrupt e))
  /\ (runQuery C typesQuery (state w) = (s1, Abrupt e) ->
      dropAllTypes C schemas w
      = (mkWorld s1 (trace w ++ [Select typesQuery]), Abrupt e)).
Proof.
  split; [|split]; intros Hrun.
  - unfold dropAllTables, bind at 1. now rewrite getAllTables_run, Hrun.
  - unfold dropAllViews, bind at 1. now rewrite getAllViews_run, Hrun.
  - unfold dropAllTypes, bind at 1. now rewrite getAllTypes_run, Hrun.
Qed.

Lemma catalog_failure_stops_drop_witness :
  dropAllTables (unreachable "connection lost") Scenario.defaultConfig
                ["public"]
                (Scenario.fresh (unreachable "connection lost") 0)
  = (mkWorld 1 [Select (tablesQuery ["public"])],
     Abrupt (DriverError "connection lost")).
Proof.
  exact (proj1 (catalog_failure_stops_drop (unreachable "connection lost")
                  Scenario.defaultConfig ["public"]
                  (Scenario.fresh (unreachable "connection lost") 0) 1
                  (DriverError "connection lost"))
               eq_refl).
Defined.

(** *** Truncate and quoted names *)

Lemma startsWith_after_quote rest :
  startsWith (String dquote rest) q = true.
Proof.
  unfold startsWith, q. cbn [String.prefix].
  destruct (ascii_dec dquote dquote) as [_|Hne]; [now destruct rest|].
  now elim Hne.
Qed.

Lemma truncate_of_quoted (C : Client) rest cascade (w : DbWorld C) :
  truncate C (String dquote rest) cascade w
  = rawQuery C
      ("TRUNCATE " ++ String dquote rest
       ++ match cascade with
          | Some true => " RESTART IDENTITY CASCADE;"
          | _ => ";"
          end) w.
Proof.
  unfold truncate. rewrite startsWith_after_quote.
  destruct cascade as [[|]|]; reflexivity.
Qed.

(** X15. Quoting in [truncate] is done once: for a table name that does
    not start with a double quote, truncating the name and truncating the
    name between double quotes send the same statement. *)
Theorem truncate_quotes_once (C : Client) table cascade (w : DbWorld C) :
  (forall rest, table <> String dquote rest) ->
  truncate C (quoted table) cascade w = truncate C table cascade w.
Proof.
  intros Hplain.
  change (quoted table) with (String dquote (table ++ q)).
  rewrite truncate_of_quoted. unfold truncate.
  destruct (startsWith_quote table) as [[_ [rest Hr]] | [-> _]];
    [now elim (Hplain rest)|].
  destruct cascade as [[|]|]; reflexivity.
Qed.

Lemma truncate_quotes_once_witness :
  truncate (Scenario.scripted [] []) (quoted "users") (Some true)
           (Scenario.fresh (Scenario.scripted [] []) 0)
  = truncate (Scenario.scripted [] []) "users" (Some true)
             (Scenario.fresh (Scenario.scripted [] []) 0).
Proof.
  refine (truncate_quotes_once (Scenario.scripted [] []) "users" (Some true)
            (Scenario.fresh (Scenario.scripted [] []) 0) _).
  intros rest H. discriminate H.
Defined.

(** X16. A name that [getAllTables] returns goes into the statement of
    [truncate] as it is: it is already quoted, so it is not quoted
    again. *)
Theorem truncate_of_discovered_table
        (C : Client) schemas (w w1 : DbWorld C) names name :
  getAllTables C schemas w = (w1, Normal names) ->
  In name names ->
  forall cascade (w' : DbWorld C),
    truncate C name cascade w'
    = rawQuery C
        ("TRUNCATE " ++ name
         ++ match cascade with
            | Some true => " RESTART IDENTITY CASCADE;"
            | _ => ";"
            end) w'.
Proof.
  intros Hget Hin cascade w'.
  rewrite getAllTables_run in Hget.
  destruct (runQuery C (tablesQuery schemas) (state w)) as [s1 [rows|e]];
    [|discriminate].
  inversion Hget; subst names.
  apply in_map_iff in Hin. destruct Hin as [r [<- _]].
  apply truncate_of_quoted.
Qed.

Lemma truncate_of_discovered_table_witness :
  truncate (Scenario.scripted [Scenario.tableRow "public" "users"] [])
           (q ++ "public" ++ q ++ "." ++ q ++ "users" ++ q) None
           (Scenario.fresh (Scenario.scripted _ _) 0)
  = rawQuery (Scenario.scripted [Scenario.tableRow "public" "users"] [])
      ("TRUNCATE " ++ q ++ "public" ++ q ++ "." ++ q ++ "users" ++ q ++ ";")
      (Scenario.fresh (Scenario.scripted _ _) 0).
Proof.
  exact (truncate_of_discovered_table
           (Scenario.scripted [Scenario.tableRow "public" "users"] [])
           ["public"] (Scenario.fresh (Scenario.scripted _ _) 0)
           (mkWorld 0 [Select (tablesQuery ["public"])])
           [q ++ "public" ++ q ++ "." ++ q ++ "users" ++ q]
           (q ++ "public" ++ q ++ "." ++ q ++ "users" ++ q)
           eq_refl (or_introl eq_refl) None
           (Scenario.fresh (Scenario.scripted _ _) 0)).
Defined.

(** *** Advisory locks *)

(** X17. [releaseAdvisoryLock(key)] sends one statement, the unlock of the
    key.  When the database answers, the method returns [true] exactly when
    the first row of the answer has a [lock_status] that is the boolean
    [true], and [false] for a first row with any other [lock_status]. *)
Theorem releaseAdvisoryLock_reports_release
        (C : Client) key (w : DbWorld C) s1 response :
  runRaw C ("SELECT PG_ADVISORY_UNLOCK('" ++ key ++ "') as lock_status;")
         (state w) = (s1, Normal response) ->
  exists v,
    releaseAdvisoryLock C key w
    = (mkWorld s1
         (trace w
          ++ [Raw ("SELECT PG_ADVISORY_UNLOCK('" ++ key
                   ++ "') as lock_status;")]),
       Normal v)
    /\ (v = JBool true
        <-> exists row rest,
              rows response = row :: rest
              /\ prop row "lock_status" = JBool true)
    /\ (forall row rest,
          rows response = row :: rest ->
          prop row "lock_status" <> JBool true ->
          v = JBool false).
Proof.
  intros Hrun. exists (lockStatus response). split; [|split].
  - unfold releaseAdvisoryLock, rawQuery, bind, call, ret. now rewrite Hrun.
  - unfold lockStatus. destruct (rows response) as [|row rest].
    + split; [discriminate | intros [r [rs [H _]]]; discriminate].
    + split.
      * intros Hv. exists row, rest. split; [reflexivity|].
        destruct (prop row "lock_status") as [|[|]|s]; simpl in Hv;
          try discriminate; reflexivity.
      * intros [r [rs [H Hp]]]. inversion H; subst r rs. now rewrite Hp.
  - intros row rest Hrows Hp. unfold lockStatus. rewrite Hrows.
    destruct (prop row "lock_status") as [|[|]|s]; try reflexivity.
    now elim Hp.
Qed.

Lemma releaseAdvisoryLock_reports_release_witness :
  exists v,
    releaseAdvisoryLock (Scenario.scripted [] [[("lock_status", JStr "t")]])
                        "migrations"
                        (Scenario.fresh (Scenario.scripted [] _) 0)
    = (mkWorld 1 [Raw "SELECT PG_ADVISORY_UNLOCK('migrations') as lock_status;"],
       Normal v)
    /\ v = JBool false.
Proof.
  destruct (releaseAdvisoryLock_reports_release
              (Scenario.scripted [] [[("lock_status", JStr "t")]]) "migrations"
              (Scenario.fresh (Scenario.scripted [] _) 0) 1
              (mkRawResponse [[("lock_status", JStr "t")]]) eq_refl)
    as [v [Hrun [_ Hother]]].
  exists v. split; [exact Hrun|].
  apply (Hother [("lock_status", JStr "t")] []); [reflexivity | discriminate].
Defined.

(** X18. When the answer to the lock or unlock statement has no row,
    [getAdvisoryLock] and [releaseAdvisoryLock] return [undefined], not a
    boolean; when the statement fails, they fail with its error. *)
Theorem advisory_lock_without_row (C : Client) key (w : DbWorld C) s1 :
  (runRaw C ("SELECT PG_TRY_ADVISORY_LOCK('" ++ key ++ "') as lock_status;")
          (state w) = (s1, Normal (mkRawResponse [])) ->
   snd (getAdvisoryLock C key w) = Normal JUndefined)
  /\ (runRaw C ("SELECT PG_ADVISORY_UNLOCK('" ++ key ++ "') as lock_status;")
             (state w) = (s1, Normal (mkRawResponse [])) ->
      snd (releaseAdvisoryLock C key w) = Normal JUndefined)
  /\ (forall e,
        runRaw C ("SELECT PG_TRY_ADVISORY_LOCK('" ++ key
                  ++ "') as lock_status;") (state w) = (s1, Abrupt e) ->
        getAdvisoryLock C key w
        = (mkWorld s1
             (trace w
              ++ [Raw ("SELECT PG_TRY_ADVISORY_LOCK('" ++ key
                       ++ "') as lock_status;")]),
           Abrupt e))
  /\ (forall e,
        runRaw C ("SELECT PG_ADVISORY_UNLOCK('" ++ key
                  ++ "') as lock_status;") (state w) = (s1, Abrupt e) ->
        releaseAdvisoryLock C key w
        = (mkWorld s1
             (trace w
              ++ [Raw ("SELECT PG_ADVISORY_UNLOCK('" ++ key
                       ++ "') as lock_status;")]),
           Abrupt e)).
Proof.
  split; [|split; [|split]].
  - intros Hrun. unfold getAdvisoryLock, rawQuery, bind, call, ret.
    now rewrite Hrun.
  - intros Hrun. unfold releaseAdvisoryLock, rawQuery, bind, call, ret.
    now rewrite Hrun.
  - intros e Hrun. unfold getAdvisoryLock, rawQuery, bind, call, ret.
    now rewrite Hrun.
  - intros e Hrun. unfold releaseAdvisoryLock, rawQuery, bind, call, ret.
    now rewrite Hrun.
Qed.

Lemma advisory_lock_without_row_witness :
  snd (getAdvisoryLock (Scenario.scripted [] []) "migrations"
         (Scenario.fresh (Scenario.scripted [] []) 0))
  = Normal JUndefined.
Proof.
  exact (proj1 (advisory_lock_without_row (Scenario.scripted [] [])
                  "migrations" (Scenario.fresh (Scenario.scripted [] []) 0) 1)
               eq_refl).
Defined.

End PgDialectMore.
